(** * OpenMRN [os.c]: a shallow embedding of the portable runtime shim

    The C file [src/lib/OpenMRN/src/os/os.c] is embedded function by
    function.  Machine integers are mathematical integers with the
    wrap-around of their C type written out; addresses are integers with
    [0] for [NULL], and pointer arithmetic wraps at the width of a
    pointer; static variables become fields of an explicit
    state record that every call threads through; the linked task list is
    a list of nodes, each carrying the address of its heap record.

    Macros and declarations the file takes from headers that are not part
    of it ([NSEC_TO_TICK_SHIFT], [configMAX_PRIORITIES], the linker
    symbols of the heap regions, ...) are section variables. *)

From Stdlib Require Import ZArith List Lia Bool Sorted.
From stdpp Require Import base option list strings relations.
Import ListNotations.

Local Open Scope Z_scope.

(** ** Machine integers *)

Module CInt.

(** Value of an unsigned [w]-bit object after storing [x] in it. *)
Definition wrap_unsigned (w x : Z) : Z := x mod 2 ^ w.

(** Value of a signed two's-complement [w]-bit object after storing [x].
    Signed overflow is undefined in C; the model gives it the
    two's-complement result that the compilers of all targets of this
    file produce. *)
Definition wrap_signed (w x : Z) : Z :=
  (x + 2 ^ (w - 1)) mod 2 ^ w - 2 ^ (w - 1).

Definition LLONG_MAX : Z := 2 ^ 63 - 1.
Definition LLONG_MIN : Z := - 2 ^ 63.

Definition to_long_long : Z -> Z := wrap_signed 64.
Definition to_uint32 : Z -> Z := wrap_unsigned 32.
Definition to_uint8 : Z -> Z := wrap_unsigned 8.

(** [int] and [unsigned int] are 32 bits wide on the targets of this
    file. *)
Definition to_int : Z -> Z := wrap_signed 32.

Definition is_long_long (x : Z) : Prop := LLONG_MIN <= x <= LLONG_MAX.

End CInt.

Import CInt.

(** ** The monotonic clock: [os_get_time_monotonic] *)

Module Clock.

(** The function's four [static] variables.  [last] is common to all
    builds; [last_millis] and [overflow_millis] exist in the [ARDUINO]
    branch, [clockmul] in the [ESP_NONOS] branch. *)
Record clock_state := MkClock {
  last : Z;
  last_millis : Z;
  overflow_millis : Z;
  clockmul : Z
}.

(** All four are initialised to zero. *)
Definition clock_init : clock_state := MkClock 0 0 0 0.

Definition set_last (v : Z) (st : clock_state) : clock_state :=
  MkClock v (last_millis st) (overflow_millis st) (clockmul st).

(** What the platform's time source hands to one call, one constructor
    per preprocessor branch. *)
Inductive raw_reading :=
| FreeRTOS_ticks (xTaskGetTickCount hw_get_partial_tick_time_nsec : Z)
| MACH_time (mach_absolute_time numer denom : Z)
| WIN32_timeval (tv_sec tv_usec : Z)
| ARDUINO_millis (millis : Z)
| ESP_NONOS_rtc (system_rtc_clock_cali_proc system_get_rtc_time : Z)
| POSIX_timespec (tv_sec tv_nsec : Z).

Section WithShift.

(** [NSEC_TO_TICK_SHIFT] comes from [os/os.h]. *)
Variable NSEC_TO_TICK_SHIFT : Z.

(** The branch-specific first half of the function: reads the source,
    converts it to nanoseconds in the [long long] variable [time], and
    updates the branch's own statics. *)
Definition read_source (st : clock_state) (r : raw_reading)
  : clock_state * Z :=
  match r with
  | FreeRTOS_ticks tick partial =>
      let time := to_long_long (Z.shiftl tick NSEC_TO_TICK_SHIFT) in
      (st, to_long_long (time + partial))
  | MACH_time abs numer denom =>
      let time := to_long_long abs in
      let time := to_long_long (time * numer) in
      (st, to_long_long (Z.quot time denom))
  | WIN32_timeval tv_sec tv_usec =>
      (st, to_long_long (to_long_long (tv_sec * 1000 * 1000 * 1000)
                         + to_long_long (tv_usec * 1000)))
  | ARDUINO_millis millis =>
      (* [os.c] is C: in [auto new_millis = millis();] the word [auto] is
         the storage class and the type defaults to [int].  The
         comparison with the [uint32_t] is made on unsigned values.
         [last_millis] is never assigned by the source. *)
      let new_millis := to_int millis in
      let ov := if to_uint32 new_millis <? last_millis st
                then to_uint32 (overflow_millis st + 1)
                else overflow_millis st in
      let time := ov in
      let time := to_long_long (Z.shiftl time 32) in
      let time := to_long_long (time + new_millis) in
      let time := to_long_long (time * 1000000) in
      (MkClock (last st) (last_millis st) ov (clockmul st), time)
  | ESP_NONOS_rtc cali rtc =>
      let mul := if clockmul st =? 0
                 then Z.shiftr (to_uint32 (to_uint32 cali * 1000)) 10
                 else clockmul st in
      let time := to_long_long rtc in
      let time := to_long_long (time * mul) in
      let time := Z.shiftr time 2 in
      (MkClock (last st) (last_millis st) (overflow_millis st) mul, time)
  | POSIX_timespec tv_sec tv_nsec =>
      (st, to_long_long (to_long_long (tv_sec * 1000000000) + tv_nsec))
  end.

(** The converted source reading of a call. *)
Definition source_time (st : clock_state) (r : raw_reading) : Z :=
  snd (read_source st r).

(** The whole function: returned value and new statics. *)
Definition os_get_time_monotonic (st : clock_state) (r : raw_reading)
  : Z * clock_state :=
  let '(st1, time) := read_source st r in
  let last' := if time <=? last st1
               then to_long_long (last st1 + 1)   (* last++ *)
               else time in                       (* last = time *)
  (last', set_last last' st1).

(** One observed call: the [last] it found, the converted reading, the
    value it returned and the [last] it left behind. *)
Record call := MkCall {
  seen : Z;
  reading : Z;
  returned : Z;
  stored : Z
}.

(** What the description says of one call: not above [last] gives
    [last + 1], above [last] gives the reading, the returned value is
    stored, and it exceeds the [last] found. *)
Definition call_ok (c : call) : Prop :=
  (reading c <= seen c -> returned c = seen c + 1)
  /\ (seen c < reading c -> returned c = reading c)
  /\ stored c = returned c
  /\ seen c < returned c.

(** A sequence of calls, one per reading, each starting from the
    statics the previous one left. *)
Fixpoint calls (st : clock_state) (rs : list raw_reading) : list call :=
  match rs with
  | [] => []
  | r :: rs' =>
      let '(v, st') := os_get_time_monotonic st r in
      MkCall (last st) (source_time st r) v (last st') :: calls st' rs'
  end.

(** No call of the sequence finds [last] already at [LLONG_MAX]. *)
Fixpoint headroom (st : clock_state) (rs : list raw_reading) : bool :=
  match rs with
  | [] => true
  | r :: rs' =>
      (last st <? LLONG_MAX)
      && headroom (snd (os_get_time_monotonic st r)) rs'
  end.

End WithShift.

End Clock.


(** ** The heap manager: [_sbrk_r] *)

Module Heap.

(** The two bump pointers, both initialised to [0]. *)
Record heap_state := MkHeap {
  heap_end : Z;
  heap2_end : Z
}.

Definition heap_init : heap_state := MkHeap 0 0.

Inductive blink_code := BLINK_DIE_OUTOFMEM | BLINK_DIE_STACKOVERFLOW
                      | BLINK_DIE_ABORT.

(** Modelled from the spec: [diewith], which is declared in a header
    outside this file, is the fatal stop of the platform: it halts the
    system and does not come back.  A call therefore either returns a
    pointer or ends in [diewith]; [fallback] is the value of the [return]
    statement that follows the [diewith] call in the source. *)
Inductive outcome :=
| Ret (p : Z)
| Die (code : blink_code) (fallback : Z).

(** The pointer a caller receives, if the call hands one out. *)
Definition pointer_of (o : outcome) : option Z :=
  match o with
  | Ret p => Some p
  | Die _ _ => None
  end.

Inductive region := Primary | Secondary.

Section WithLinkerSymbols.

(** The width in bits of a data pointer, and so of [ptrdiff_t], on the
    target. *)
Variable ptr_bits : Z.

(** Addresses of the linker symbols.  Without a second heap in the link,
    [__heap2_start] and [__heap2_end] are aliases of one weak object and
    so have the same address. *)
Variables __cs3_heap_start __cs3_heap_end __heap2_start __heap2_end : Z.

(** [p + incr] on a [char *]: the sum modulo the width of a pointer.  A
    result outside the object is undefined in C; the model gives it the
    wrapped value that the compilers of all targets of this file
    produce, and pointers compare as unsigned numbers. *)
Definition ptr_add (p incr : Z) : Z := wrap_unsigned ptr_bits (p + incr).

(** The sum [p + s] is itself an address of the target, so that the
    pointer arithmetic gives it unchanged. *)
Definition no_wrap (p s : Z) : Prop := 0 <= p + s < 2 ^ ptr_bits.

(** Values of the two pointers once the function's first two [if]s have
    replaced a [0] by the start of the region. *)
Definition primary_bump (st : heap_state) : Z :=
  if heap_end st =? 0 then __cs3_heap_start else heap_end st.

Definition secondary_bump (st : heap_state) : Z :=
  if heap2_end st =? 0 then __heap2_start else heap2_end st.

Definition _sbrk_r (st : heap_state) (incr : Z) : outcome * heap_state :=
  let heap_end1 := primary_bump st in
  let heap2_end1 := secondary_bump st in
  let prev_heap_end := heap_end1 in
  if ptr_add heap_end1 incr >? __cs3_heap_end then
    if negb (__heap2_start =? __heap2_end)
       && (ptr_add heap2_end1 incr <=? __heap2_end)
    then
      let prev_heap2_end := heap2_end1 in
      (Ret prev_heap2_end, MkHeap heap_end1 (ptr_add heap2_end1 incr))
    else
      (Die BLINK_DIE_OUTOFMEM 0, MkHeap heap_end1 heap2_end1)
  else
    (Ret prev_heap_end, MkHeap (ptr_add heap_end1 incr) heap2_end1).

(** The branch of [_sbrk_r] a successful request goes through, by the
    function's first test. *)
Definition region_of (st : heap_state) (incr : Z) : region :=
  if ptr_add (primary_bump st) incr >? __cs3_heap_end
  then Secondary else Primary.

(** The conditions of the allocation policy, in the words of the
    description: the request fits the primary region; a secondary region
    is present; the request fits the secondary region. *)
Definition fits_primary (st : heap_state) (s : Z) : Prop :=
  primary_bump st + s <= __cs3_heap_end.

Definition secondary_present : Prop := __heap2_start <> __heap2_end.

Definition fits_secondary (st : heap_state) (s : Z) : Prop :=
  secondary_bump st + s <= __heap2_end.

(** A request is served from a region when the call returns that region's
    bump pointer and moves it up by the request. *)
Definition served_from (rg : region) (st : heap_state) (s : Z)
           (res : outcome * heap_state) : Prop :=
  match rg with
  | Primary =>
      fst res = Ret (primary_bump st)
      /\ heap_end (snd res) = primary_bump st + s
  | Secondary =>
      fst res = Ret (secondary_bump st)
      /\ heap2_end (snd res) = secondary_bump st + s
  end.

(** A sequence of requests, each on the pointers the previous one left;
    nothing runs after [diewith]. *)
Fixpoint sbrk_all (st : heap_state) (reqs : list Z) : list outcome :=
  match reqs with
  | [] => []
  | s :: reqs' =>
      match _sbrk_r st s with
      | (Ret p, st') => Ret p :: sbrk_all st' reqs'
      | (Die c v, _) => [Die c v]
      end
  end.

End WithLinkerSymbols.

End Heap.


(** ** One-time initialisation: [os_thread_once] *)

Module Once.

(** The [state] field of [os_thread_once_t]. *)
Inductive once_state :=
| OS_THREAD_ONCE_NEVER
| OS_THREAD_ONCE_INPROGRESS
| OS_THREAD_ONCE_DONE.

Global Instance once_state_eq_dec : EqDecision once_state.
Proof. solve_decision. Defined.

(** Modelled from the spec: the [DIE] macro of [utils/macros.h], which is
    not part of this file, reports a fatal logic error and halts.  A call
    therefore either returns or ends in [DIE] with its message. *)
Inductive result (A : Type) :=
| Ok (a : A)
| Died (msg : string).
Arguments Ok {A} a.
Arguments Died {A} msg.

Global Instance result_bind : MBind result :=
  fun A B (k : A -> result B) (m : result A) =>
    match m with
    | Ok a => k a
    | Died msg => Died msg
    end.

Global Instance result_ret : MRet result := fun A (a : A) => Ok a.

Section WithData.

(** The data the initialisation routine works on. *)
Context {W : Type}.

(** What a call made outside the scheduler can see and change: the guard
    and the routine's data.  The routine receives the guard as well, since
    it may itself call [os_thread_once] on it. *)
Record world := MkWorld {
  state : once_state;
  data : W
}.

Definition set_state (s : once_state) (w : world) : world :=
  MkWorld s (data w).

Definition routine_t : Type := world -> result world.

(** A routine that only touches its data. *)
Definition plain (f : W -> W) : routine_t :=
  fun w => Ok (MkWorld (state w) (f (data w))).

(** The [else] branch of the [__FreeRTOS__] definition, taken while
    [xTaskGetSchedulerState()] is not [taskSCHEDULER_RUNNING]. *)
Definition os_thread_once_unscheduled (routine : routine_t) (w : world)
  : result (Z * world) :=
  match state w with
  | OS_THREAD_ONCE_NEVER =>
      w' ← routine (set_state OS_THREAD_ONCE_INPROGRESS w);
      mret (0, set_state OS_THREAD_ONCE_DONE w')
  | _ => Ok (0, w)
  end.

(** The [__EMSCRIPTEN__] definition. *)
Definition os_thread_once_emscripten (routine : routine_t) (w : world)
  : result (Z * world) :=
  match state w with
  | OS_THREAD_ONCE_NEVER =>
      w' ← routine (set_state OS_THREAD_ONCE_INPROGRESS w);
      mret (0, set_state OS_THREAD_ONCE_DONE w')
  | OS_THREAD_ONCE_INPROGRESS => Died "Recursive call to os_thread_once."
  | OS_THREAD_ONCE_DONE => Ok (0, w)
  end.

(** [k] calls one after the other, as a single thread of control makes
    them; the returned values are collected in call order. *)
Fixpoint call_times (once : routine_t -> world -> result (Z * world))
         (routine : routine_t) (k : nat) (w : world)
  : result (list Z * world) :=
  match k with
  | O => Ok ([], w)
  | S k' =>
      r ← once routine w;
      rs ← call_times once routine k' (snd r);
      mret (fst r :: fst rs, snd rs)
  end.

(** A routine that triggers its own guard again, [depth] levels deep,
    through the given definition of [os_thread_once]. *)
Fixpoint reentrant (once : routine_t -> world -> result (Z * world))
         (depth : nat) : routine_t :=
  match depth with
  | O => fun w => Ok w
  | S d => fun w => r ← once (reentrant once d) w; mret (snd r)
  end.

End WithData.

Arguments world : clear implicits.
Arguments routine_t : clear implicits.

(** *** The branch taken while the scheduler runs

    Here callers really race, so the branch is a transition system: every
    caller has a program counter named after the source line it is about
    to execute, and a scheduler picks which caller moves next.  The
    routine runs outside the mutex and only the caller that found the
    guard at [OS_THREAD_ONCE_NEVER] runs it, so it is one step on the
    shared data. *)

Inductive pc :=
| L184_scheduler_state
| L187_lock
| L188_if_never
| L190_set_inprogress
| L191_unlock
| L192_routine
| L193_lock
| L194_set_done
| L197_while
| L200_unlock
| L201_usleep
| L202_lock
| L204_unlock
| L217_return.

Inductive thread :=
| Running (at_line : pc)
| Returned (v : Z).

Section Scheduled.

Context {W : Type}.
Variable routine : W -> W.

(** [onceMutex] records its holder, as a FreeRTOS mutex does. *)
Record sys := MkSys {
  threads : list thread;
  once : once_state;
  onceMutex : option nat;
  shared : W
}.

Definition set_thread (i : nat) (t : thread) (s : sys) : sys :=
  MkSys (<[i := t]> (threads s)) (once s) (onceMutex s) (shared s).

Definition goto (i : nat) (p : pc) (s : sys) : sys :=
  set_thread i (Running p) s.

(** Modelled from the spec: [os_mutex_lock] and [os_mutex_unlock] are
    inline functions of [os/os.h], which is not part of this file; they
    are the serialization primitive of the guard.  Taking the mutex is
    possible only while nobody holds it, and a caller that finds it held
    stays where it is; releasing it makes it free. *)
Definition os_mutex_lock (i : nat) (s : sys) : option sys :=
  match onceMutex s with
  | None => Some (MkSys (threads s) (once s) (Some i) (shared s))
  | Some _ => None
  end.

Definition os_mutex_unlock (s : sys) : sys :=
  MkSys (threads s) (once s) None (shared s).

Definition set_once (v : once_state) (s : sys) : sys :=
  MkSys (threads s) v (onceMutex s) (shared s).

Definition call_routine (s : sys) : sys :=
  MkSys (threads s) (once s) (onceMutex s) (routine (shared s)).

(** One step of caller [i]; [None] when it is blocked or has returned. *)
Definition thread_step (i : nat) (s : sys) : option sys :=
  match threads s !! i with
  | Some (Running p) =>
      match p with
      | L184_scheduler_state => Some (goto i L187_lock s)
      | L187_lock => goto i L188_if_never <$> os_mutex_lock i s
      | L188_if_never =>
          if decide (once s = OS_THREAD_ONCE_NEVER)
          then Some (goto i L190_set_inprogress s)
          else Some (goto i L197_while s)
      | L190_set_inprogress =>
          Some (goto i L191_unlock (set_once OS_THREAD_ONCE_INPROGRESS s))
      | L191_unlock => Some (goto i L192_routine (os_mutex_unlock s))
      | L192_routine => Some (goto i L193_lock (call_routine s))
      | L193_lock => goto i L194_set_done <$> os_mutex_lock i s
      | L194_set_done =>
          Some (goto i L197_while (set_once OS_THREAD_ONCE_DONE s))
      | L197_while =>
          if decide (once s = OS_THREAD_ONCE_INPROGRESS)
          then Some (goto i L200_unlock s)
          else Some (goto i L204_unlock s)
      | L200_unlock => Some (goto i L201_usleep (os_mutex_unlock s))
      | L201_usleep => Some (goto i L202_lock s)
      | L202_lock => goto i L197_while <$> os_mutex_lock i s
      | L204_unlock => Some (goto i L217_return (os_mutex_unlock s))
      | L217_return => Some (set_thread i (Returned 0) s)
      end
  | _ => None
  end.

(** A run under a schedule: the list of callers picked, in order.  Picking
    a caller that cannot move changes nothing. *)
Fixpoint exec (sched : list nat) (s : sys) : sys :=
  match sched with
  | [] => s
  | i :: sched' => exec sched' (default s (thread_step i s))
  end.

(** The step relation of the system: some caller moves.  A state is
    reachable when finitely many steps lead to it. *)
Definition step (s s' : sys) : Prop := exists i, thread_step i s = Some s'.

Definition reachable (s0 s : sys) : Prop := rtc step s0 s.

(** The lines at which a caller holds [onceMutex]. *)
Definition holding (p : pc) : bool :=
  match p with
  | L188_if_never | L190_set_inprogress | L191_unlock | L194_set_done
  | L197_while | L200_unlock | L204_unlock => true
  | _ => false
  end.

(** [k] callers about to enter the function on a fresh guard. *)
Definition start (k : nat) (w0 : W) : sys :=
  MkSys (replicate k (Running L184_scheduler_state))
        OS_THREAD_ONCE_NEVER None w0.

Definition has_returned (t : thread) : bool :=
  match t with
  | Returned _ => true
  | Running _ => false
  end.

Definition all_returned (s : sys) : bool := forallb has_returned (threads s).

(** The schedule that lets the callers run one after the other, each for
    as many steps as the longest path through the function has. *)
Definition one_by_one (k : nat) : list nat :=
  flat_map (fun i => replicate 11 i) (seq 0 k).

(** What holds of caller [i] at each line, in a run that started on a
    fresh guard with data [w0]; [ini] names the caller that found the
    guard at [OS_THREAD_ONCE_NEVER] and has not yet set it to
    [OS_THREAD_ONCE_DONE]. *)
Definition thread_ok (w0 : W) (s : sys) (ini : option nat) (i : nat)
           (t : thread) : Prop :=
  match t with
  | Running L184_scheduler_state | Running L187_lock => True
  | Running L188_if_never => onceMutex s = Some i
  | Running L190_set_inprogress =>
      onceMutex s = Some i /\ once s = OS_THREAD_ONCE_NEVER
  | Running L191_unlock =>
      onceMutex s = Some i /\ ini = Some i /\ shared s = w0
  | Running L192_routine => ini = Some i /\ shared s = w0
  | Running L193_lock => ini = Some i /\ shared s = routine w0
  | Running L194_set_done =>
      onceMutex s = Some i /\ ini = Some i /\ shared s = routine w0
  | Running L197_while | Running L200_unlock =>
      onceMutex s = Some i /\ once s <> OS_THREAD_ONCE_NEVER
  | Running L201_usleep | Running L202_lock =>
      once s <> OS_THREAD_ONCE_NEVER
  | Running L204_unlock =>
      onceMutex s = Some i /\ once s = OS_THREAD_ONCE_DONE
  | Running L217_return => once s = OS_THREAD_ONCE_DONE
  | Returned v => once s = OS_THREAD_ONCE_DONE /\ v = 0
  end.

(** Whoever [onceMutex] names as its holder is at a line between a lock
    and the matching unlock. *)
Definition holder_ok (s : sys) : Prop :=
  forall i, onceMutex s = Some i ->
            exists p, threads s !! i = Some (Running p) /\ holding p = true.

(** The invariant of all runs from [start k w0]. *)
Definition inv (w0 : W) (s : sys) : Prop :=
  exists ini : option nat,
    (forall i t, threads s !! i = Some t -> thread_ok w0 s ini i t)
    /\ (once s = OS_THREAD_ONCE_NEVER -> ini = None /\ shared s = w0)
    /\ (ini <> None -> once s = OS_THREAD_ONCE_INPROGRESS)
    /\ (once s = OS_THREAD_ONCE_DONE -> shared s = routine w0).

End Scheduled.

Arguments sys : clear implicits.

(** The routine of the test scenario: it increments a counter. *)
Definition increment (counter : nat) : nat := S counter.

End Once.

(** ** Threads and the task list: [os_thread_create], [os_thread_start],
       [vApplicationIdleHook] *)

Module Threads.

Definition DELETED_TASK_MAGIC : Z := 0xb5c5d5e5.

(** One [TaskList] record.  [node] is the address [malloc] gave the
    record; the [next] link is the order of the list.  [task] is the task
    handle, [0] for [NULL]; [name] is a C string without its terminator. *)
Record TaskList := MkTaskList {
  node : Z;
  task : Z;
  name : list Z;
  unused : Z
}.

(** The characters of a string literal. *)
Definition chars (s : string) : list Z :=
  map (fun a => Z.of_nat (Ascii.nat_of_ascii a)) (String.list_ascii_of_string s).

(** The C string held in a [char] buffer: the bytes before the first
    [NUL]. *)
Fixpoint c_str (buf : list Z) : list Z :=
  match buf with
  | [] => []
  | c :: buf' => if c =? 0 then [] else c :: c_str buf'
  end.

(** [strcpy(dst, src)]: the characters of [src] and a terminator over the
    front of [dst]. *)
Definition strcpy (dst : list Z) (src : list Z) : list Z :=
  src ++ [0] ++ drop (S (length src)) dst.

(** The buffer [auto_name] after the four assignments of the source, from
    whatever the ten bytes held before. *)
Definition auto_name (before : list Z) (count : Z) : list Z :=
  let buf := strcpy before (chars "thread.") in
  let buf := <[9%nat := 0]> buf in
  let buf := <[8%nat := to_uint8 (48 + count mod 10)]> buf in
  let buf := <[7%nat := to_uint8 (48 + count / 10)]> buf in
  buf.

(** The name the ten bytes spell when [auto_name] is built for a given
    value of [count]: the prefix and the two characters computed from the
    counter, up to the first [NUL]. *)
Definition counter_suffixed (count : Z) : list Z :=
  c_str (chars "thread."
         ++ [to_uint8 (48 + count / 10); to_uint8 (48 + count mod 10); 0]).

(** [static unsigned int count] and the global [taskList]. *)
Record thread_state := MkThreads {
  count : Z;
  taskList : list TaskList
}.

Definition threads_init : thread_state := MkThreads 0 [].

(** What the function asks the kernel to create. *)
Record task_params := MkParams {
  pcName : list Z;
  usStackDepth : Z;
  uxPriority : Z
}.

Definition add_thread_to_task_list (task_new : TaskList)
           (tl : list TaskList) : list TaskList :=
  task_new :: tl.

Section WithConfig.

(** From [FreeRTOSConfig.h] and the port: the number of priorities, the
    size of a stack word, the width of [size_t]. *)
Variables configMAX_PRIORITIES sizeof_portSTACK_TYPE size_bits : Z.

(** The width of [UBaseType_t], the unsigned type of the kernel's
    priority parameter. *)
Variable UBaseType_bits : Z.

(** The type of the macro [configMAX_PRIORITIES], which decides how
    [priority >= configMAX_PRIORITIES] compares: [None] where the macro
    is a plain integer constant and the comparison is one of [int]s,
    [Some w] where it is an expression of an unsigned type of [w] bits,
    of the rank of [int] or above, and the [int] is converted to that
    type before it is compared. *)
Variable configMAX_PRIORITIES_unsigned : option Z.

(** The kernel's answers: the name it keeps for a task created under a
    given name ([pcTaskGetTaskName]), and the least number of stack words
    a task has had free ([uxTaskGetStackHighWaterMark]). *)
Variable pcTaskGetTaskName : list Z -> list Z.
Variable uxTaskGetStackHighWaterMark : Z -> Z.

Definition to_size_t : Z -> Z := wrap_unsigned size_bits.

(** The three adjustments at the head of the function. *)
Definition default_name (garbage : list Z) (name : option (list Z))
           (count : Z) : list Z * Z :=
  match name with
  | None => (c_str (auto_name garbage count), to_uint32 (count + 1))
  | Some n => (n, count)
  end.

Definition to_UBaseType : Z -> Z := wrap_unsigned UBaseType_bits.

(** The left operand of [priority >= configMAX_PRIORITIES] after the
    usual arithmetic conversions. *)
Definition converted (priority : Z) : Z :=
  match configMAX_PRIORITIES_unsigned with
  | Some w => wrap_unsigned w priority
  | None => priority
  end.

Definition adjust_priority (priority : Z) : Z :=
  if priority =? 0 then configMAX_PRIORITIES ÷ 2
  else if converted priority >=? configMAX_PRIORITIES
       then configMAX_PRIORITIES - 1
  else priority.

Definition adjust_stack_size (stack_size : Z) : Z :=
  if stack_size =? 0 then 2048 else stack_size.

(** The [__FreeRTOS__] body.  [garbage] is what the stack slot of
    [auto_name] held on entry, [handle] the handle the kernel returns and
    [task_new] the address [malloc] returns for the list record.  The
    three kernel calls the source chooses from by configuration, and the
    two branches on [thread], pass the same name, depth and priority and
    record the same handle, so one case stands for all.  The kernel takes
    the [int priority] in a parameter of type [UBaseType_t]. *)
Definition os_thread_create (st : thread_state) (garbage : list Z)
           (name : option (list Z)) (priority stack_size : Z)
           (handle task_new : Z) : Z * task_params * thread_state :=
  let '(name, count') := default_name garbage name (count st) in
  let priority := adjust_priority priority in
  let stack_size := adjust_stack_size stack_size in
  let params := MkParams name (stack_size / sizeof_portSTACK_TYPE)
                  (to_UBaseType priority) in
  let entry := MkTaskList task_new handle (pcTaskGetTaskName name) stack_size in
  (0, params, MkThreads count' (add_thread_to_task_list entry (taskList st))).

(** The arguments of one call, with what the environment supplies to
    it. *)
Record spawn_request := MkRequest {
  rq_garbage : list Z;
  rq_name : option (list Z);
  rq_priority : Z;
  rq_stack_size : Z;
  rq_handle : Z;
  rq_task_new : Z
}.

(** [auto_name] is an array of ten [char]. *)
Definition ten_bytes (rq : spawn_request) : Prop :=
  length (rq_garbage rq) = 10%nat.

(** A call with [name == NULL]. *)
Definition unnamed_call (rq : spawn_request) : bool :=
  match rq_name rq with
  | None => true
  | Some _ => false
  end.

(** Of the names a run of calls passed to the kernel, those of the calls
    with [name == NULL]. *)
Fixpoint auto_names (reqs : list spawn_request) (ps : list task_params)
  : list (list Z) :=
  match reqs, ps with
  | rq :: reqs', p :: ps' =>
      (if unnamed_call rq then [pcName p] else []) ++ auto_names reqs' ps'
  | _, _ => []
  end.

(** A run of calls: what was asked of the kernel, in call order, and the
    final state. *)
Fixpoint spawn_all (st : thread_state) (reqs : list spawn_request)
  : list task_params * thread_state :=
  match reqs with
  | [] => ([], st)
  | rq :: reqs' =>
      let '(_, params, st') :=
        os_thread_create st (rq_garbage rq) (rq_name rq) (rq_priority rq)
          (rq_stack_size rq) (rq_handle rq) (rq_task_new rq) in
      let '(ps, st'') := spawn_all st' reqs' in
      (params :: ps, st'')
  end.

(** A call with [name == NULL], all else left to the defaults; the [n]th
    such call gets handle and record address [n + 1] here. *)
Definition unnamed (n : nat) : spawn_request :=
  MkRequest (replicate 10 0) None 0 0 (Z.of_nat n + 1) (Z.of_nat n + 1).

(** What [os_thread_start] does to the list once the entry function of
    the task with handle [current] has returned: the first record of that
    task loses its handle and gets the magic value. *)
Fixpoint os_thread_start (current : Z) (tl : list TaskList)
  : list TaskList :=
  match tl with
  | [] => []
  | e :: tl' =>
      if task e =? current
      then MkTaskList (node e) 0 (name e) (to_size_t DELETED_TASK_MAGIC)
             :: tl'
      else e :: os_thread_start current tl'
  end.

(** First loop of the idle hook: unlink and free the records that hold
    the magic value.  The result is the remaining list and the addresses
    passed to [free], in list order. *)
Fixpoint sweep (tl : list TaskList) : list TaskList * list Z :=
  match tl with
  | [] => ([], [])
  | e :: tl' =>
      let '(kept, freed) := sweep tl' in
      if unused e =? DELETED_TASK_MAGIC
      then (kept, node e :: freed)
      else (e :: kept, freed)
  end.

(** Body of the second loop. *)
Definition refresh (e : TaskList) : TaskList :=
  if task e =? 0 then e
  else MkTaskList (node e) (task e) (name e)
         (to_size_t (uxTaskGetStackHighWaterMark (task e)
                     * sizeof_portSTACK_TYPE)).

(** One run of the hook: the list it leaves and the addresses it freed.
    The source keeps the scheduler suspended during the first loop and
    lets it run for a moment after each step of the second; here a run is
    taken as a whole, with no other task changing the list meanwhile.
    [hw_idle_hook], which does nothing unless a board overrides it, is
    left out. *)
Definition vApplicationIdleHook (tl : list TaskList)
  : list TaskList * list Z :=
  let '(kept, freed) := sweep tl in
  (map refresh kept, freed).

(** A record is reclaimable when it holds the magic value, which is what
    the first loop of the idle hook tests; [marked] is that test. *)
Definition reclaimable (e : TaskList) : Prop :=
  unused e = DELETED_TASK_MAGIC.

Definition marked (e : TaskList) : bool := unused e =? DELETED_TASK_MAGIC.

Definition present (a : Z) (tl : list TaskList) : Prop :=
  In a (map node tl).

End WithConfig.

(** *** The body of [os_thread_create] for hosts with POSIX threads *)

(** The calls the body makes, in order of appearance in the source. *)
Inductive pthread_call :=
| pthread_attr_init
| pthread_attr_setdetachstate
| pthread_attr_setstacksize (stacksize : Z)
| pthread_attr_setschedparam (sched_priority : Z)
| pthread_attr_setinheritsched
| pthread_attr_setschedpolicy
| pthread_create
| pthread_setname_np (name : list Z).

(** Which conditional blocks are compiled: the scheduling attributes are
    left out under [__linux__] and [__MACH__], the naming call under
    [__MINGW32__] and [__MACH__]. *)
Record host := MkHost {
  linux_or_mach : bool;
  mingw_or_mach : bool
}.

Section WithPthreads.

Variable h : host.

(** What the thread library answers to each call; [0] is success. *)
Variable answer : pthread_call -> Z.

(** [result = call; if (result != 0) return result;] followed by the rest
    of the body: the calls made and the value returned. *)
Definition checked (c : pthread_call) (rest : list pthread_call * Z)
  : list pthread_call * Z :=
  if answer c =? 0 then (c :: fst rest, snd rest) else ([c], answer c).

Definition os_thread_create_pthread (st : thread_state) (garbage : list Z)
           (name : option (list Z)) (priority stack_size : Z)
  : Z * list pthread_call * thread_state :=
  let '(name, count') := default_name garbage name (count st) in
  let create :=
    let result := answer pthread_create in
    (pthread_create
       :: (if negb (mingw_or_mach h) && (result =? 0)
           then [pthread_setname_np name] else []),
     result) in
  let scheduling rest :=
    if linux_or_mach h then rest
    else checked (pthread_attr_setstacksize stack_size)
           (checked (pthread_attr_setschedparam 0)
              (checked pthread_attr_setinheritsched
                 (checked pthread_attr_setschedpolicy rest))) in
  let '(made, result) :=
    checked pthread_attr_init
      (checked pthread_attr_setdetachstate (scheduling create)) in
  (result, made, MkThreads count' (taskList st)).

End WithPthreads.

End Threads.

(** ** Program entry: [main] *)

Module Bootstrap.

(** The three ways the body of [main] is compiled: under [__FreeRTOS__],
    under [__WIN32__], and for every other host. *)
Inductive build := FreeRTOS_build | WIN32_build | hosted_build.

(** The calls [main] makes, in order. *)
Inductive event :=
| call_hw_init
| call_open (path : string) (flags : string)
| call_xTaskCreate (entry name : string) (usStackDepth uxPriority : Z)
| call_add_thread_to_task_list (name : string) (unused : Z)
| call_vTaskStartScheduler
| call_WSAStartup
| call_appl_main (argc : Z) (argv : list string).

Section WithApplication.

(** The application entry point: its result, or [None] when it never
    comes back. *)
Variable appl_main : Z -> list string -> option Z.

Variables configMAX_PRIORITIES : Z.

(** From the port: the size of a stack word and the width of
    [UBaseType_t], the unsigned type of the kernel's priority
    parameter. *)
Variables sizeof_portSTACK_TYPE UBaseType_bits : Z.

Variables config_main_thread_priority config_main_thread_stack_size : Z.

(** Under [TARGET_LPC11Cxx] the three standard descriptors are not
    opened. *)
Variable TARGET_LPC11Cxx : bool.

Variables STDIN_DEVICE STDOUT_DEVICE STDERR_DEVICE : string.

(** Whether [open] on a path answers a negative descriptor. *)
Variable open_fails : string -> bool.

(** [if (open(dev, flags) < 0) open("/dev/null", flags);] *)
Definition open_or_null (dev flags : string) : list event :=
  if open_fails dev
  then [call_open dev flags; call_open "/dev/null" flags]
  else [call_open dev flags].

(** The trace of calls and the exit status; no status when control never
    leaves [vTaskStartScheduler].  The kernel is given the stack size in
    words and takes the [int priority] in a parameter of type
    [UBaseType_t]; the list record keeps the size in bytes. *)
Definition main (b : build) (argc : Z) (argv : list string)
  : list event * option Z :=
  match b with
  | FreeRTOS_build =>
      let priority :=
        if config_main_thread_priority =? 0xdefa01
        then configMAX_PRIORITIES ÷ 2
        else config_main_thread_priority in
      ([call_hw_init]
         ++ (if TARGET_LPC11Cxx then []
             else open_or_null STDIN_DEVICE "O_RDWR"
                  ++ open_or_null STDOUT_DEVICE "O_RDWR"
                  ++ open_or_null STDERR_DEVICE "O_WRONLY")
         ++ [call_xTaskCreate "main_thread" "thread.main"
               (config_main_thread_stack_size / sizeof_portSTACK_TYPE)
               (wrap_unsigned UBaseType_bits priority);
             call_add_thread_to_task_list "thread.main"
               config_main_thread_stack_size;
             call_vTaskStartScheduler],
       None)
  | WIN32_build =>
      ([call_WSAStartup; call_appl_main argc argv], appl_main argc argv)
  | hosted_build =>
      ([call_appl_main argc argv], appl_main argc argv)
  end.

End WithApplication.

End Bootstrap.

(** ** Runs of the clock and of the allocator *)

Module Runs.

Import Clock Heap.

(** The statics a sequence of calls to [os_get_time_monotonic] leaves. *)
Fixpoint clock_after (NSEC_TO_TICK_SHIFT : Z) (st : clock_state)
         (rs : list raw_reading) : clock_state :=
  match rs with
  | [] => st
  | r :: rs' =>
      clock_after NSEC_TO_TICK_SHIFT
        (snd (os_get_time_monotonic NSEC_TO_TICK_SHIFT st r)) rs'
  end.

(** A block of memory handed out by [_sbrk_r]: where it starts, how long
    it is, and which of the two bump pointers it came from. *)
Record block := MkBlock {
  b_addr : Z;
  b_size : Z;
  b_region : region
}.

Section WithLinkerSymbols.

Variable ptr_bits : Z.
Variables __cs3_heap_start __cs3_heap_end __heap2_start __heap2_end : Z.

(** A run of requests: the blocks handed out, in order, until the first
    request that ends in [diewith], and the pointers at that moment. *)
Fixpoint sbrk_blocks (st : heap_state) (reqs : list Z)
  : list block * heap_state :=
  match reqs with
  | [] => ([], st)
  | s :: reqs' =>
      match Heap._sbrk_r ptr_bits __cs3_heap_start __cs3_heap_end
              __heap2_start __heap2_end st s with
      | (Ret p, st') =>
          let '(bs, st'') := sbrk_blocks st' reqs' in
          (MkBlock p s
             (Heap.region_of ptr_bits __cs3_heap_start __cs3_heap_end st s)
             :: bs, st'')
      | (Die _ _, st') => ([], st')
      end
  end.

(** A request of non-negative size that is too small to wrap the pointer
    arithmetic: added to the end of the primary region, and of the
    secondary region where there is one, it still gives an address. *)
Definition cannot_wrap (s : Z) : Prop :=
  0 <= s
  /\ __cs3_heap_end + s < 2 ^ ptr_bits
  /\ (Heap.secondary_present __heap2_start __heap2_end ->
      __heap2_end + s < 2 ^ ptr_bits).

(** The bytes of a block lie between the start and the end symbol of its
    region. *)
Definition inside (b : block) : Prop :=
  match b_region b with
  | Primary =>
      __cs3_heap_start <= b_addr b /\ b_addr b + b_size b <= __cs3_heap_end
  | Secondary =>
      __heap2_start <= b_addr b /\ b_addr b + b_size b <= __heap2_end
  end.

End WithLinkerSymbols.

(** Two blocks share no byte. *)
Definition apart (b1 b2 : block) : Prop :=
  b_addr b1 + b_size b1 <= b_addr b2 \/ b_addr b2 + b_size b2 <= b_addr b1.

(** The sizes of the blocks of one region, added up. *)
Definition bytes_from (rg : region) (bs : list block) : Z :=
  fold_right Z.add 0
    (map b_size
       (List.filter (fun b => match b_region b, rg with
                              | Primary, Primary | Secondary, Secondary => true
                              | _, _ => false
                              end) bs)).

End Runs.

(** ** The lines of [os_thread_once] between which a caller is the one
       that initialises *)

Module OnceLines.

Import Once.

(** From the assignment of [OS_THREAD_ONCE_INPROGRESS] up to the
    assignment of [OS_THREAD_ONCE_DONE]. *)
Definition initialising (p : pc) : bool :=
  match p with
  | L191_unlock | L192_routine | L193_lock | L194_set_done => true
  | _ => false
  end.

End OnceLines.

(** ** A thread from creation to reclamation *)

Module Lifecycle.

Import Threads.

Section WithConfig.

Variables configMAX_PRIORITIES sizeof_portSTACK_TYPE size_bits : Z.
Variable UBaseType_bits : Z.
Variable configMAX_PRIORITIES_unsigned : option Z.
Variable pcTaskGetTaskName : list Z -> list Z.
Variable uxTaskGetStackHighWaterMark : Z -> Z.

(** The task list after a call of [os_thread_create] and the return of
    the entry function of the task it created, in the two orders the
    scheduler allows.  The kernel call that creates the task comes before
    [add_thread_to_task_list]: a new task that preempts its creator can
    return from its entry function and walk the list in
    [os_thread_start] while its record is not linked yet; the creator
    then links the record with the handle in it. *)
Definition exits_after_linking (st : thread_state) (garbage : list Z)
           (name : option (list Z)) (priority stack_size : Z)
           (handle task_new : Z) : list TaskList :=
  os_thread_start size_bits handle
    (taskList
       (snd (os_thread_create configMAX_PRIORITIES sizeof_portSTACK_TYPE
               UBaseType_bits configMAX_PRIORITIES_unsigned
               pcTaskGetTaskName st garbage name priority stack_size
               handle task_new))).

Definition exits_before_linking (st : thread_state) (garbage : list Z)
           (name : option (list Z)) (priority stack_size : Z)
           (handle task_new : Z) : list TaskList :=
  taskList
    (snd (os_thread_create configMAX_PRIORITIES sizeof_portSTACK_TYPE
            UBaseType_bits configMAX_PRIORITIES_unsigned
            pcTaskGetTaskName
            (MkThreads (count st)
               (os_thread_start size_bits handle (taskList st)))
            garbage name priority stack_size handle task_new)).

(** [n] runs of the idle hook in a row: the list they leave and all the
    addresses they freed. *)
Fixpoint idle_runs (n : nat) (tl : list TaskList)
  : list TaskList * list Z :=
  match n with
  | O => (tl, [])
  | S n' =>
      let '(tl1, freed1) :=
        vApplicationIdleHook sizeof_portSTACK_TYPE size_bits
          uxTaskGetStackHighWaterMark tl in
      let '(tl2, freed2) := idle_runs n' tl1 in
      (tl2, freed1 ++ freed2)
  end.

End WithConfig.

End Lifecycle.

(** ** [usleep] under FreeRTOS *)

Module Delay.

Section WithConfig.

(** [NSEC_TO_TICK_SHIFT] is from [os/os.h]; [tick_bits] is the width of
    [TickType_t], the type of the argument of [vTaskDelay]. *)
Variables NSEC_TO_TICK_SHIFT tick_bits : Z.

Definition to_TickType : Z -> Z := wrap_unsigned tick_bits.

(** The number of ticks passed to [vTaskDelay], and the value returned. *)
Definition usleep (usec : Z) : Z * Z :=
  let nsec := to_long_long usec in
  let nsec := to_long_long (nsec * 1000) in
  (to_TickType (Z.shiftr nsec NSEC_TO_TICK_SHIFT), 0).

End WithConfig.

End Delay.

(** ** [pipe] under Windows *)

Module Pipe.

(** The socket calls the function makes. *)
Inductive call :=
| socket
| setsockopt_SO_REUSEADDR (s : Z)
| bind (s : Z)
| getsockname (s : Z)
| listen (s : Z)
| connect (s : Z)
| accept (s : Z)
| setsockopt_TCP_NODELAY (s : Z)
| closesocket (s : Z).

Inductive errno_value := EMFILE.

(** What the socket library answers: the two sockets from [socket], the
    results of the calls that are checked, and the socket from
    [accept]. *)
Record answers := MkAnswers {
  a_listener : Z;
  a_connector : Z;
  a_setsockopt : Z;
  a_bind : Z;
  a_getsockname : Z;
  a_listen : Z;
  a_connect : Z;
  a_acceptor : Z
}.

(** What a call of [pipe] leaves: the value returned, [errno] if the
    function set it, the two descriptors if it stored them, and the calls
    made. *)
Record pipe_result := MkPipe {
  returned : Z;
  errno : option errno_value;
  fildes : option (Z * Z);
  made : list call
}.

(** A failure exit: the sockets given are closed, [errno] is set, -1 is
    returned. *)
Definition fail (before : list call) (to_close : list Z) : pipe_result :=
  MkPipe (-1) (Some EMFILE) None (before ++ map closesocket to_close).

Definition pipe (a : answers) : pipe_result :=
  let listener := a_listener a in
  let connector := a_connector a in
  let acceptor := a_acceptor a in
  if listener <=? 0 then fail [socket] [] else
  if connector <=? 0 then fail [socket; socket] [listener] else
  let t := [socket; socket; setsockopt_SO_REUSEADDR listener] in
  if a_setsockopt a <? 0 then fail t [listener; connector] else
  let t := t ++ [bind listener] in
  if a_bind a <? 0 then fail t [listener; connector] else
  let t := t ++ [getsockname listener] in
  if a_getsockname a <? 0 then fail t [listener; connector] else
  let t := t ++ [listen listener] in
  if a_listen a <? 0 then fail t [listener; connector] else
  let t := t ++ [connect connector] in
  if a_connect a <? 0 then fail t [listener; connector] else
  let t := t ++ [accept listener] in
  if acceptor <? 0 then fail t [listener; connector] else
  MkPipe 0 None (Some (connector, acceptor))
    (t ++ [setsockopt_TCP_NODELAY connector;
           setsockopt_TCP_NODELAY acceptor;
           closesocket listener]).

(** The sockets a trace closes, in order. *)
Fixpoint closed (tr : list call) : list Z :=
  match tr with
  | [] => []
  | closesocket s :: tr' => s :: closed tr'
  | _ :: tr' => closed tr'
  end.

(** Whether a trace names a socket after having closed it; [shut] are
    the sockets closed so far. *)
Fixpoint used_after_close (shut : list Z) (tr : list call) : bool :=
  match tr with
  | [] => false
  | c :: tr' =>
      match c with
      | socket => used_after_close shut tr'
      | closesocket s =>
          existsb (Z.eqb s) shut || used_after_close (s :: shut) tr'
      | setsockopt_SO_REUSEADDR s | bind s | getsockname s | listen s
      | connect s | accept s | setsockopt_TCP_NODELAY s =>
          existsb (Z.eqb s) shut || used_after_close shut tr'
      end
  end.

(** The sockets the library handed out during a call: a socket from
    [socket] counts when the function takes the answer for one (a
    positive value), the one from [accept] when it is not negative; the
    second [socket] call is made only if the first gave a socket, and
    [accept] only if every call before it succeeded. *)
Definition obtained (a : answers) : list Z :=
  if a_listener a <=? 0 then [] else
  if a_connector a <=? 0 then [a_listener a] else
  if (a_setsockopt a <? 0) || (a_bind a <? 0) || (a_getsockname a <? 0)
     || (a_listen a <? 0) || (a_connect a <? 0) || (a_acceptor a <? 0)
  then [a_listener a; a_connector a]
  else [a_listener a; a_connector a; a_acceptor a].

End Pipe.

(** * Properties *)

(** ** Machine integers *)

Module CIntFacts.

Ltac long_long_bounds :=
  unfold is_long_long, to_long_long, wrap_signed, LLONG_MIN, LLONG_MAX in *;
  change (2 ^ (64 - 1)) with 9223372036854775808 in *;
  change (2 ^ 63) with 9223372036854775808 in *;
  change (2 ^ 64) with 18446744073709551616 in *.

Lemma to_long_long_range x : is_long_long (to_long_long x).
Proof.
  long_long_bounds.
  pose proof (Z.mod_pos_bound (x + 9223372036854775808)
                18446744073709551616 eq_refl).
  lia.
Qed.

Lemma to_long_long_id x : is_long_long x -> to_long_long x = x.
Proof.
  long_long_bounds. intros H. rewrite Z.mod_small; lia.
Qed.

Lemma shiftr_long_long x n :
  0 <= n -> is_long_long x -> is_long_long (Z.shiftr x n).
Proof.
  intros Hn Hx. rewrite Z.shiftr_div_pow2 by assumption.
  assert (Hp : 0 < 2 ^ n) by (apply Z.pow_pos_nonneg; lia).
  long_long_bounds. split.
  - apply Z.div_le_lower_bound; [assumption|]. nia.
  - apply Z.lt_succ_r, Z.div_lt_upper_bound; [assumption|]. nia.
Qed.

End CIntFacts.

(** ** The monotonic clock *)

Module ClockFacts.

Import Clock CIntFacts.

Section WithShift.

Variable NSEC_TO_TICK_SHIFT : Z.

Local Abbreviation read_source := (Clock.read_source NSEC_TO_TICK_SHIFT).
Local Abbreviation source_time := (Clock.source_time NSEC_TO_TICK_SHIFT).
Local Abbreviation os_get_time_monotonic := (Clock.os_get_time_monotonic NSEC_TO_TICK_SHIFT).
Local Abbreviation calls := (Clock.calls NSEC_TO_TICK_SHIFT).
Local Abbreviation headroom := (Clock.headroom NSEC_TO_TICK_SHIFT).

(** Reading the source never touches [last]. *)
Lemma read_source_last st r : last (fst (read_source st r)) = last st.
Proof. destruct r; reflexivity. Qed.

(** Whatever the source says, the converted reading is a [long long]. *)
Lemma source_time_range st r : is_long_long (source_time st r).
Proof.
  unfold source_time.
  destruct r; cbn [read_source snd]; try apply to_long_long_range.
  apply shiftr_long_long; [lia | apply to_long_long_range].
Qed.

(** What one call does, split by the comparison it makes. *)
Lemma os_get_time_monotonic_unfold st r :
  os_get_time_monotonic st r =
    let v := if source_time st r <=? last st
             then to_long_long (last st + 1)
             else source_time st r in
    (v, set_last v (fst (read_source st r))).
Proof.
  unfold Clock.os_get_time_monotonic, Clock.source_time.
  pose proof (read_source_last st r) as Hl.
  destruct (read_source st r) as [st1 time]. cbn [fst snd] in *.
  now rewrite Hl.
Qed.

Lemma os_get_time_monotonic_stored st r :
  last (snd (os_get_time_monotonic st r)) = fst (os_get_time_monotonic st r).
Proof. rewrite os_get_time_monotonic_unfold. reflexivity. Qed.

Lemma os_get_time_monotonic_range st r :
  is_long_long (fst (os_get_time_monotonic st r)).
Proof.
  rewrite os_get_time_monotonic_unfold. cbn [fst].
  destruct (source_time st r <=? last st).
  - apply to_long_long_range.
  - apply source_time_range.
Qed.

(** With room above [last], the call returns [last + 1] when the source
    has not moved past [last], and the source's reading otherwise. *)
Lemma os_get_time_monotonic_step st r :
  is_long_long (last st) -> last st < LLONG_MAX ->
  let v := fst (os_get_time_monotonic st r) in
  (source_time st r <= last st -> v = last st + 1)
  /\ (last st < source_time st r -> v = source_time st r)
  /\ last st < v.
Proof.
  intros Hr Hmax. rewrite os_get_time_monotonic_unfold. cbn [fst].
  assert (Hid : to_long_long (last st + 1) = last st + 1).
  { apply to_long_long_id. unfold is_long_long in *. lia. }
  destruct (Z.leb_spec (source_time st r) (last st)); rewrite ?Hid; lia.
Qed.

Lemma calls_cons st r rs :
  calls st (r :: rs) =
    MkCall (last st) (source_time st r)
           (fst (os_get_time_monotonic st r))
           (last (snd (os_get_time_monotonic st r)))
      :: calls (snd (os_get_time_monotonic st r)) rs.
Proof.
  cbn [Clock.calls]. destruct (os_get_time_monotonic st r); reflexivity.
Qed.

Lemma calls_ok st rs :
  is_long_long (last st) -> headroom st rs = true ->
  Forall call_ok (calls st rs).
Proof.
  revert st. induction rs as [|r rs IH]; intros st Hr Hh.
  - constructor.
  - cbn [Clock.headroom] in Hh. apply andb_prop in Hh as [Hlt Hh].
    apply Z.ltb_lt in Hlt.
    rewrite calls_cons. constructor.
    + destruct (os_get_time_monotonic_step st r Hr Hlt) as (H1 & H2 & H3).
      unfold call_ok; cbn [seen reading returned stored].
      rewrite os_get_time_monotonic_stored. auto.
    + apply IH; [|exact Hh].
      rewrite os_get_time_monotonic_stored.
      apply os_get_time_monotonic_range.
Qed.

(** Every value a sequence returns lies above the [last] it started
    from. *)
Lemma calls_above st rs :
  is_long_long (last st) -> headroom st rs = true ->
  Forall (fun c => last st < returned c) (calls st rs).
Proof.
  revert st. induction rs as [|r rs IH]; intros st Hr Hh.
  - constructor.
  - cbn [Clock.headroom] in Hh. apply andb_prop in Hh as [Hlt Hh].
    apply Z.ltb_lt in Hlt.
    destruct (os_get_time_monotonic_step st r Hr Hlt) as (_ & _ & H3).
    rewrite calls_cons. constructor; [exact H3|].
    assert (Hr' : is_long_long (last (snd (os_get_time_monotonic st r)))).
    { rewrite os_get_time_monotonic_stored.
      apply os_get_time_monotonic_range. }
    specialize (IH _ Hr' Hh).
    rewrite os_get_time_monotonic_stored in IH.
    eapply Forall_impl; [exact IH|]. cbn beta. intros c Hc. lia.
Qed.

Lemma calls_sorted st rs :
  is_long_long (last st) -> headroom st rs = true ->
  StronglySorted Z.lt (map returned (calls st rs)).
Proof.
  revert st. induction rs as [|r rs IH]; intros st Hr Hh.
  - constructor.
  - pose proof Hh as Hh0.
    cbn [Clock.headroom] in Hh. apply andb_prop in Hh as [Hlt Hh].
    assert (Hr' : is_long_long (last (snd (os_get_time_monotonic st r)))).
    { rewrite os_get_time_monotonic_stored.
      apply os_get_time_monotonic_range. }
    rewrite calls_cons. cbn [map returned]. constructor.
    + apply IH; assumption.
    + pose proof (calls_above _ rs Hr' Hh) as Ha.
      rewrite os_get_time_monotonic_stored in Ha.
      apply Forall_map. exact Ha.
Qed.

(** Each call starts from the [last] its predecessor stored. *)
Lemma calls_chained st rs :
  map seen (calls st rs)
  = take (length rs) (last st :: map stored (calls st rs)).
Proof.
  revert st. induction rs as [|r rs IH]; intros st; [reflexivity|].
  rewrite calls_cons. cbn [map seen stored length take].
  f_equal. apply IH.
Qed.

(** C1, as amended.  Along every sequence of calls in which no call finds
    [last] already at [LLONG_MAX]: a call whose converted reading is not
    above the [last] it finds returns exactly that [last] plus one, any
    other call returns the reading; the returned value is stored as the
    new [last], which is the [last] the next call finds; and the returned
    values, preceded by the initial [last], are strictly increasing. *)
Theorem os_get_time_monotonic_strictly_increasing st rs :
  is_long_long (last st) -> headroom st rs = true ->
  Forall call_ok (calls st rs)
  /\ map seen (calls st rs)
     = take (length rs) (last st :: map stored (calls st rs))
  /\ StronglySorted Z.lt (last st :: map returned (calls st rs)).
Proof.
  intros Hr Hh. split; [|split].
  - apply calls_ok; assumption.
  - apply calls_chained.
  - constructor.
    + apply calls_sorted; assumption.
    + apply Forall_map, calls_above; assumption.
Qed.

(** C10, as amended.  Starting from the initial statics, every call of a
    sequence in which no call finds [last] already at [LLONG_MAX] returns
    at least 1, whatever the source reads; the first call of a process
    always does. *)
Theorem os_get_time_monotonic_positive rs :
  headroom clock_init rs = true ->
  Forall (fun c => 1 <= returned c) (calls clock_init rs)
  /\ forall r, 1 <= fst (os_get_time_monotonic clock_init r).
Proof.
  assert (H0 : is_long_long (last clock_init))
    by (vm_compute; split; discriminate).
  intros Hh. split.
  - eapply Forall_impl; [apply calls_above; assumption|].
    cbn. intros c Hc. lia.
  - intros r.
    destruct (os_get_time_monotonic_step clock_init r H0) as (_ & _ & H3).
    + reflexivity.
    + cbn in H3. lia.
Qed.

End WithShift.

(** A source stuck at 7 ns while [last] is 40, read three times, then a
    source that has moved on. *)
Lemma os_get_time_monotonic_strictly_increasing_witness :
  let st := MkClock 40 0 0 0 in
  let rs := [POSIX_timespec 0 7; POSIX_timespec 0 7; POSIX_timespec 0 7;
             FreeRTOS_ticks 3 5] in
  is_long_long (last st) /\ headroom 20 st rs = true
  /\ map returned (calls 20 st rs) = [41; 42; 43; 3145733]
  /\ StronglySorted Z.lt (last st :: map returned (calls 20 st rs)).
Proof.
  cbv zeta.
  assert (H0 : is_long_long 40) by (vm_compute; split; discriminate).
  split; [exact H0|]. split; [reflexivity|]. split; [reflexivity|].
  apply (os_get_time_monotonic_strictly_increasing 20 (MkClock 40 0 0 0));
    [exact H0 | reflexivity].
Defined.

(** C1 fails at the top of the range: a POSIX clock stuck at
    9223372036.854775807 s makes the first call return [LLONG_MAX] and the
    second one, whose [last++] wraps, return [LLONG_MIN]. *)
Lemma os_get_time_monotonic_wraps :
  let stuck := POSIX_timespec 9223372036 854775807 in
  map returned (calls 20 clock_init [stuck; stuck]) = [LLONG_MAX; LLONG_MIN]
  /\ ~ StronglySorted Z.lt (map returned (calls 20 clock_init [stuck; stuck])).
Proof.
  cbv zeta.
  assert (E : map returned
                (calls 20 clock_init
                   [POSIX_timespec 9223372036 854775807;
                    POSIX_timespec 9223372036 854775807])
              = [LLONG_MAX; LLONG_MIN]) by (vm_compute; reflexivity).
  split; [exact E|]. rewrite E. intros H.
  apply StronglySorted_inv in H as [_ H].
  apply Forall_inv in H. vm_compute in H. discriminate H.
Qed.

Lemma os_get_time_monotonic_positive_witness :
  let rs := [ARDUINO_millis 0; FreeRTOS_ticks 0 (-5); WIN32_timeval 0 0] in
  headroom 20 clock_init rs = true
  /\ map returned (calls 20 clock_init rs) = [1; 2; 3]
  /\ Forall (fun c => 1 <= returned c) (calls 20 clock_init rs).
Proof.
  cbv zeta. split; [reflexivity|]. split; [reflexivity|].
  apply (os_get_time_monotonic_positive 20
           [ARDUINO_millis 0; FreeRTOS_ticks 0 (-5); WIN32_timeval 0 0]).
  reflexivity.
Defined.

(** C10 fails at the top of the range: after a call that read
    [mach_absolute_time() = 2^63 - 1] on a 1/1 timebase and so returned
    [LLONG_MAX], a call whose source reads zero returns [LLONG_MIN]. *)
Lemma os_get_time_monotonic_negative :
  let st := snd (os_get_time_monotonic 20 clock_init
                   (MACH_time 9223372036854775807 1 1)) in
  last st = LLONG_MAX
  /\ fst (os_get_time_monotonic 20 st (MACH_time 0 1 1)) = LLONG_MIN
  /\ ~ 1 <= fst (os_get_time_monotonic 20 st (MACH_time 0 1 1)).
Proof.
  cbv zeta. split; [vm_compute; reflexivity|].
  split; [vm_compute; reflexivity|].
  vm_compute. intros H. apply H. reflexivity.
Qed.

End ClockFacts.

(** ** The heap manager *)

Module HeapFacts.

Import Heap.

Section WithLinkerSymbols.

Variable ptr_bits : Z.
Variables __cs3_heap_start __cs3_heap_end __heap2_start __heap2_end : Z.

Local Abbreviation ptr_add := (Heap.ptr_add ptr_bits).
Local Abbreviation no_wrap := (Heap.no_wrap ptr_bits).
Local Abbreviation primary_bump := (Heap.primary_bump __cs3_heap_start).
Local Abbreviation secondary_bump := (Heap.secondary_bump __heap2_start).
Local Abbreviation _sbrk_r :=
  (Heap._sbrk_r ptr_bits __cs3_heap_start __cs3_heap_end
     __heap2_start __heap2_end).
Local Abbreviation region_of :=
  (Heap.region_of ptr_bits __cs3_heap_start __cs3_heap_end).
Local Abbreviation fits_primary :=
  (Heap.fits_primary __cs3_heap_start __cs3_heap_end).
Local Abbreviation fits_secondary :=
  (Heap.fits_secondary __heap2_start __heap2_end).
Local Abbreviation secondary_present :=
  (Heap.secondary_present __heap2_start __heap2_end).
Local Abbreviation served_from :=
  (Heap.served_from __cs3_heap_start __heap2_start).

(** Pointer arithmetic: exact on sums that are addresses, off by one
    turn of the address space just outside. *)
Lemma ptr_add_no_wrap p s : no_wrap p s -> ptr_add p s = p + s.
Proof.
  unfold Heap.no_wrap, Heap.ptr_add, wrap_unsigned. intros H.
  apply Z.mod_small. exact H.
Qed.

Lemma ptr_add_below p s :
  - 2 ^ ptr_bits <= p + s < 0 -> ptr_add p s = p + s + 2 ^ ptr_bits.
Proof.
  unfold Heap.ptr_add, wrap_unsigned. intros H.
  symmetry. apply (Z.mod_unique _ _ (-1)); lia.
Qed.

Lemma ptr_add_above p s :
  2 ^ ptr_bits <= p + s < 2 * 2 ^ ptr_bits ->
  ptr_add p s = p + s - 2 ^ ptr_bits.
Proof.
  unfold Heap.ptr_add, wrap_unsigned. intros H.
  symmetry. apply (Z.mod_unique _ _ 1); lia.
Qed.

(** The three ways through the function, each under the tests of the
    code that select it. *)
Lemma _sbrk_r_from_primary st s :
  ptr_add (primary_bump st) s <= __cs3_heap_end ->
  _sbrk_r st s
  = (Ret (primary_bump st),
     MkHeap (ptr_add (primary_bump st) s) (secondary_bump st)).
Proof.
  unfold Heap._sbrk_r. intros H.
  destruct (Z.gtb_spec (ptr_add (primary_bump st) s) __cs3_heap_end);
    [lia|].
  reflexivity.
Qed.

Lemma _sbrk_r_from_secondary st s :
  __cs3_heap_end < ptr_add (primary_bump st) s ->
  __heap2_start <> __heap2_end ->
  ptr_add (secondary_bump st) s <= __heap2_end ->
  _sbrk_r st s
  = (Ret (secondary_bump st),
     MkHeap (primary_bump st) (ptr_add (secondary_bump st) s)).
Proof.
  unfold Heap._sbrk_r. intros H1 H2 H3.
  destruct (Z.gtb_spec (ptr_add (primary_bump st) s) __cs3_heap_end);
    [|lia].
  destruct (Z.eqb_spec __heap2_start __heap2_end); [contradiction|].
  destruct (Z.leb_spec (ptr_add (secondary_bump st) s) __heap2_end);
    [|lia].
  reflexivity.
Qed.

Lemma _sbrk_r_dies st s :
  __cs3_heap_end < ptr_add (primary_bump st) s ->
  ~ (__heap2_start <> __heap2_end
     /\ ptr_add (secondary_bump st) s <= __heap2_end) ->
  _sbrk_r st s
  = (Die BLINK_DIE_OUTOFMEM 0, MkHeap (primary_bump st) (secondary_bump st)).
Proof.
  unfold Heap._sbrk_r. intros H1 H2.
  destruct (Z.gtb_spec (ptr_add (primary_bump st) s) __cs3_heap_end);
    [|lia].
  destruct (Z.eqb_spec __heap2_start __heap2_end); [reflexivity|].
  destruct (Z.leb_spec (ptr_add (secondary_bump st) s) __heap2_end);
    [|reflexivity].
  exfalso. apply H2. split; assumption.
Qed.

(** The same three ways under the conditions of the description, for
    requests whose sums are addresses. *)
Lemma _sbrk_r_primary st s :
  no_wrap (primary_bump st) s -> fits_primary st s ->
  _sbrk_r st s
  = (Ret (primary_bump st), MkHeap (primary_bump st + s) (secondary_bump st)).
Proof.
  unfold Heap.fits_primary. intros W H.
  rewrite _sbrk_r_from_primary; rewrite (ptr_add_no_wrap _ _ W);
    [reflexivity | exact H].
Qed.

Lemma _sbrk_r_secondary st s :
  no_wrap (primary_bump st) s -> no_wrap (secondary_bump st) s ->
  ~ fits_primary st s -> secondary_present -> fits_secondary st s ->
  _sbrk_r st s
  = (Ret (secondary_bump st),
     MkHeap (primary_bump st) (secondary_bump st + s)).
Proof.
  unfold Heap.fits_primary, Heap.secondary_present, Heap.fits_secondary.
  intros W1 W2 H1 H2 H3.
  rewrite _sbrk_r_from_secondary;
    rewrite ?(ptr_add_no_wrap _ _ W1), ?(ptr_add_no_wrap _ _ W2);
    [reflexivity | lia | exact H2 | exact H3].
Qed.

Lemma _sbrk_r_exhausted st s :
  no_wrap (primary_bump st) s ->
  (secondary_present -> no_wrap (secondary_bump st) s) ->
  ~ fits_primary st s -> ~ (secondary_present /\ fits_secondary st s) ->
  _sbrk_r st s
  = (Die BLINK_DIE_OUTOFMEM 0, MkHeap (primary_bump st) (secondary_bump st)).
Proof.
  unfold Heap.fits_primary, Heap.secondary_present, Heap.fits_secondary.
  intros W1 W2 H1 H2.
  apply _sbrk_r_dies.
  - rewrite (ptr_add_no_wrap _ _ W1). lia.
  - intros [P S]. apply H2. split; [exact P|].
    rewrite (ptr_add_no_wrap _ _ (W2 P)) in S. exact S.
Qed.

Lemma fits_primary_dec st s : {fits_primary st s} + {~ fits_primary st s}.
Proof. unfold Heap.fits_primary. apply Z_le_dec. Qed.

Lemma secondary_dec st s :
  {secondary_present /\ fits_secondary st s}
  + {~ (secondary_present /\ fits_secondary st s)}.
Proof.
  unfold Heap.secondary_present, Heap.fits_secondary.
  destruct (Z.eq_dec __heap2_start __heap2_end);
    destruct (Z_le_dec (secondary_bump st + s) __heap2_end); intuition.
Qed.

(** A pointer read back from the state a call left is the value the call
    stored, for the pointer the call did not move. *)
Lemma primary_bump_kept w st :
  Heap.primary_bump __cs3_heap_start (MkHeap (primary_bump st) w)
  = primary_bump st.
Proof.
  unfold Heap.primary_bump; cbn [heap_end].
  destruct (Z.eqb_spec (heap_end st) 0) as [E|E].
  - destruct (Z.eqb_spec __cs3_heap_start 0); congruence.
  - destruct (Z.eqb_spec (heap_end st) 0); congruence.
Qed.

Lemma secondary_bump_kept v st :
  Heap.secondary_bump __heap2_start (MkHeap v (secondary_bump st))
  = secondary_bump st.
Proof.
  unfold Heap.secondary_bump; cbn [heap2_end].
  destruct (Z.eqb_spec (heap2_end st) 0) as [E|E].
  - destruct (Z.eqb_spec __heap2_start 0); congruence.
  - destruct (Z.eqb_spec (heap2_end st) 0); congruence.
Qed.



(** In a run of requests the fatal stop happens at most once, and nothing
    is handed out after it. *)
Lemma sbrk_all_dies_last st reqs front c v back :
  Heap.sbrk_all ptr_bits __cs3_heap_start __cs3_heap_end
    __heap2_start __heap2_end st reqs = front ++ Die c v :: back ->
  back = [] /\ Forall (fun o => pointer_of o <> None) front.
Proof.
  revert st front. induction reqs as [|s reqs IH]; intros st front E.
  - destruct front; discriminate E.
  - cbn [Heap.sbrk_all] in E.
    destruct (_sbrk_r st s) as [[p|c' v'] st'].
    + destruct front as [|o front]; [discriminate E|].
      injection E as <- E. destruct (IH _ _ E) as [Hb Hf].
      split; [exact Hb|]. constructor; [discriminate|exact Hf].
    + destruct front as [|o front].
      * injection E as _ _ <-. split; [reflexivity|constructor].
      * injection E as _ E. destruct front; discriminate E.
Qed.

End WithLinkerSymbols.

(** Requests spill over into the secondary region when the primary one
    cannot take them, a smaller request still goes to the primary region
    afterwards, and the first request neither region can take stops the
    system. *)
Example sbrk_all_spills :
  Heap.sbrk_all 32 1000 2000 5000 6000 heap_init [600; 600; 300; 600; 8]
  = [Ret 1000; Ret 5000; Ret 1600; Die BLINK_DIE_OUTOFMEM 0].
Proof. reflexivity. Qed.

(** Without a second heap the two symbols share an address. *)
Example sbrk_all_single_region :
  Heap.sbrk_all 32 1000 2000 3000 3000 heap_init [600; 600]
  = [Ret 1000; Die BLINK_DIE_OUTOFMEM 0].
Proof. reflexivity. Qed.

(** The first request of a program finds both pointers at [0]: it is
    served from the start of the primary region, and the variable of the
    secondary region is set to the start of that region. *)
Example _sbrk_r_first_call :
  Heap._sbrk_r 32 1000 2000 5000 6000 heap_init 16
  = (Ret 1000, MkHeap 1016 5000).
Proof. reflexivity. Qed.





End HeapFacts.

(** ** One-time initialisation *)

Module OnceFacts.

Import Once.

Section Sequential.

Context {W : Type}.
Variable f : W -> W.

(** Outside the scheduler: the first call on a fresh guard runs the
    routine and leaves the guard done; a call on a done guard does
    nothing.  Both return 0. *)
Lemma unscheduled_first d :
  os_thread_once_unscheduled (plain f) (MkWorld OS_THREAD_ONCE_NEVER d)
  = Ok (0, MkWorld OS_THREAD_ONCE_DONE (f d)).
Proof. reflexivity. Qed.

Lemma unscheduled_done (r : routine_t W) d :
  os_thread_once_unscheduled r (MkWorld OS_THREAD_ONCE_DONE d)
  = Ok (0, MkWorld OS_THREAD_ONCE_DONE d).
Proof. reflexivity. Qed.

Lemma emscripten_first d :
  os_thread_once_emscripten (plain f) (MkWorld OS_THREAD_ONCE_NEVER d)
  = Ok (0, MkWorld OS_THREAD_ONCE_DONE (f d)).
Proof. reflexivity. Qed.

Lemma emscripten_done (r : routine_t W) d :
  os_thread_once_emscripten r (MkWorld OS_THREAD_ONCE_DONE d)
  = Ok (0, MkWorld OS_THREAD_ONCE_DONE d).
Proof. reflexivity. Qed.

(** Any number of further calls on a done guard. *)
Lemma call_times_done once (r : routine_t W) k d :
  (forall d', once r (MkWorld OS_THREAD_ONCE_DONE d')
              = Ok (0, MkWorld OS_THREAD_ONCE_DONE d')) ->
  call_times once r k (MkWorld OS_THREAD_ONCE_DONE d)
  = Ok (replicate k 0, MkWorld OS_THREAD_ONCE_DONE d).
Proof.
  intros Hdone. induction k as [|k IH]; [reflexivity|].
  cbn [call_times]. rewrite Hdone. cbn. rewrite IH. reflexivity.
Qed.

Lemma call_times_fresh once k d :
  once (plain f) (MkWorld OS_THREAD_ONCE_NEVER d)
  = Ok (0, MkWorld OS_THREAD_ONCE_DONE (f d)) ->
  (forall d', once (plain f) (MkWorld OS_THREAD_ONCE_DONE d')
              = Ok (0, MkWorld OS_THREAD_ONCE_DONE d')) ->
  call_times once (plain f) (S k) (MkWorld OS_THREAD_ONCE_NEVER d)
  = Ok (replicate (S k) 0, MkWorld OS_THREAD_ONCE_DONE (f d)).
Proof.
  intros Hfirst Hdone. cbn [call_times]. rewrite Hfirst. cbn.
  rewrite (call_times_done once (plain f) k (f d) Hdone). reflexivity.
Qed.

End Sequential.

Section ScheduledFacts.

Context {W : Type}.
Variable routine : W -> W.
Variable w0 : W.

Local Abbreviation thread_step := (Once.thread_step routine).
Local Abbreviation exec := (Once.exec routine).
Local Abbreviation thread_ok := (Once.thread_ok routine w0).
Local Abbreviation inv := (Once.inv routine w0).
Local Abbreviation step := (Once.step routine).
Local Abbreviation reachable := (Once.reachable routine).

Lemma inv_start k : inv (start k w0).
Proof.
  exists None. repeat split; try discriminate; try congruence.
  intros i t Hi. cbn in Hi.
  apply lookup_replicate in Hi as [-> _]. exact I.
Qed.

(** A step of caller [i] rewrites slot [i] of the thread list; the
    invariant carries over once the new line's assertion holds for [i]
    and the assertions of the other callers survive the change. *)
Lemma inv_after (s s' : sys W) ini' i t' :
  threads s' = <[i := t']> (threads s) ->
  (i < length (threads s))%nat ->
  thread_ok s' ini' i t' ->
  (forall j t, j <> i -> threads s !! j = Some t -> thread_ok s' ini' j t) ->
  (once s' = OS_THREAD_ONCE_NEVER -> ini' = None /\ shared s' = w0) ->
  (ini' <> None -> once s' = OS_THREAD_ONCE_INPROGRESS) ->
  (once s' = OS_THREAD_ONCE_DONE -> shared s' = routine w0) ->
  inv s'.
Proof.
  intros Hth Hlen Hi Hothers G1 G2 G3.
  exists ini'. split; [|split; [|split]]; try assumption.
  intros j t Hj. rewrite Hth in Hj.
  destruct (decide (j = i)) as [->|Hne].
  - rewrite list_lookup_insert_eq in Hj by assumption.
    injection Hj as <-. exact Hi.
  - rewrite list_lookup_insert_ne in Hj by congruence.
    apply Hothers; assumption.
Qed.

Ltac others :=
  let j := fresh "j" in
  let t := fresh "t" in
  let Hne := fresh "Hne" in
  let Hj := fresh "Hj" in
  intros j t Hne Hj;
  match goal with
  | Hall : forall (i : nat) (t : thread), _ = Some t -> _ |- _ =>
      specialize (Hall j t Hj)
  end;
  destruct t as [[]|]; cbn in *; intuition congruence.

Lemma inv_step i s s' : inv s -> thread_step i s = Some s' -> inv s'.
Proof.
  intros (ini & Hall & G1 & G2 & G3) Hstep.
  unfold Once.thread_step in Hstep.
  destruct (threads s !! i) as [[p|v]|] eqn:Hi; try discriminate.
  assert (Hlen : (i < length (threads s))%nat)
    by (eapply lookup_lt_Some; eassumption).
  pose proof (Hall i _ Hi) as Hme.
  destruct s as [ths o m d]. cbn in *.
  destruct p; cbn in Hstep, Hme.
  - (* line 184 *)
    injection Hstep as <-.
    apply (inv_after (MkSys ths o m d) _ ini i (Running L187_lock));
      cbn; auto. others.
  - (* line 187 *)
    destruct m; [discriminate|]. injection Hstep as <-.
    apply (inv_after (MkSys ths o None d) _ ini i (Running L188_if_never));
      cbn; auto. others.
  - (* line 188 *)
    destruct (decide (o = OS_THREAD_ONCE_NEVER)); injection Hstep as <-.
    + apply (inv_after (MkSys ths o m d) _ ini i
               (Running L190_set_inprogress)); cbn; auto. others.
    + apply (inv_after (MkSys ths o m d) _ ini i (Running L197_while));
        cbn; auto. others.
  - (* line 190 *)
    injection Hstep as <-. destruct Hme as [Hm Ho]. subst o.
    destruct (G1 eq_refl) as [-> Hd].
    apply (inv_after (MkSys ths OS_THREAD_ONCE_NEVER m d) _ (Some i) i
             (Running L191_unlock)); cbn; auto; try discriminate. others.
  - (* line 191 *)
    injection Hstep as <-.
    apply (inv_after (MkSys ths o m d) _ ini i (Running L192_routine));
      cbn; try tauto. others.
  - (* line 192 *)
    injection Hstep as <-. destruct Hme as [Hini Hd].
    assert (Ho : o = OS_THREAD_ONCE_INPROGRESS) by (apply G2; congruence).
    apply (inv_after (MkSys ths o m d) _ ini i (Running L193_lock));
      cbn; try (intuition congruence). others.
  - (* line 193 *)
    destruct m; [discriminate|]. injection Hstep as <-.
    apply (inv_after (MkSys ths o None d) _ ini i (Running L194_set_done));
      cbn; try tauto. others.
  - (* line 194 *)
    injection Hstep as <-. destruct Hme as (Hm & Hini & Hd).
    apply (inv_after (MkSys ths o m d) _ None i (Running L197_while));
      cbn; try (intuition congruence). others.
  - (* line 197 *)
    destruct (decide (o = OS_THREAD_ONCE_INPROGRESS)); injection Hstep as <-.
    + apply (inv_after (MkSys ths o m d) _ ini i (Running L200_unlock));
        cbn; auto. others.
    + apply (inv_after (MkSys ths o m d) _ ini i (Running L204_unlock));
        cbn; auto; [|others].
      destruct o; intuition congruence.
  - (* line 200 *)
    injection Hstep as <-.
    apply (inv_after (MkSys ths o m d) _ ini i (Running L201_usleep));
      cbn; try tauto. others.
  - (* line 201 *)
    injection Hstep as <-.
    apply (inv_after (MkSys ths o m d) _ ini i (Running L202_lock));
      cbn; auto. others.
  - (* line 202 *)
    destruct m; [discriminate|]. injection Hstep as <-.
    apply (inv_after (MkSys ths o None d) _ ini i (Running L197_while));
      cbn; auto. others.
  - (* line 204 *)
    injection Hstep as <-.
    apply (inv_after (MkSys ths o m d) _ ini i (Running L217_return));
      cbn; try tauto. others.
  - (* line 217 *)
    injection Hstep as <-.
    apply (inv_after (MkSys ths o m d) _ ini i (Returned 0));
      cbn; auto. others.
Qed.

Lemma thread_step_length i s s' :
  thread_step i s = Some s' -> length (threads s') = length (threads s).
Proof.
  unfold Once.thread_step.
  destruct (threads s !! i) as [[p|v]|]; try discriminate.
  destruct s as [ths o m d]; cbn.
  destruct p; cbn;
    repeat match goal with
           | |- context [decide ?P] => destruct (decide P)
           | |- context [Once.os_mutex_lock _ _] =>
               unfold Once.os_mutex_lock; cbn; destruct m; cbn
           end;
    intros E; try discriminate E; injection E as <-; cbn;
    apply length_insert.
Qed.

(** Once every caller has returned, the guard is done, the routine has
    run on the initial data exactly once, and all callers got 0. *)
Lemma inv_all_returned s :
  inv s -> all_returned s = true -> threads s <> [] ->
  once s = OS_THREAD_ONCE_DONE
  /\ shared s = routine w0
  /\ threads s = replicate (length (threads s)) (Returned 0).
Proof.
  intros (ini & Hall & _ & _ & G3) Hret Hne.
  unfold all_returned in Hret. rewrite forallb_forall in Hret.
  assert (Hzero : Forall (fun t => Returned 0 = t) (threads s)).
  { apply Forall_forall. intros t Ht.
    pose proof (Hret t (proj1 (list_elem_of_In _ _) Ht)) as Hr.
    apply list_elem_of_lookup in Ht as [i Hi].
    specialize (Hall i t Hi).
    destruct t as [p|v]; [discriminate Hr|].
    cbn in Hall. destruct Hall as [_ ->]. reflexivity. }
  assert (Hdone : once s = OS_THREAD_ONCE_DONE).
  { destruct (threads s) as [|t ths] eqn:E; [contradiction|].
    pose proof (Hret t (or_introl eq_refl)) as Hr.
    specialize (Hall 0%nat t eq_refl).
    destruct t as [p|v]; [discriminate Hr|]. apply Hall. }
  split; [exact Hdone|]. split; [apply G3, Hdone|].
  symmetry. apply replicate_as_Forall. split; [reflexivity|exact Hzero].
Qed.

(** *** Some schedule lets all callers return *)

Lemma exec_app l1 l2 s : exec (l1 ++ l2) s = exec l2 (exec l1 s).
Proof.
  revert s. induction l1 as [|i l1 IH]; intros s; [reflexivity|].
  cbn [app Once.exec]. apply IH.
Qed.

Lemma insert_focus (pre rest : list thread) t t' :
  <[length pre := t']> (pre ++ t :: rest) = pre ++ t' :: rest.
Proof.
  replace (length pre) with (length pre + 0)%nat by lia.
  rewrite insert_app_r. reflexivity.
Qed.

Lemma exec_cons i l s :
  exec (i :: l) s = exec l (default s (thread_step i s)).
Proof. reflexivity. Qed.

(** The caller that arrives first goes through the whole function. *)
Lemma first_caller_returns rest :
  exec (replicate 11 0%nat)
    (MkSys (Running L184_scheduler_state :: rest)
           OS_THREAD_ONCE_NEVER None w0)
  = MkSys (Returned 0 :: rest) OS_THREAD_ONCE_DONE None (routine w0).
Proof. reflexivity. Qed.

(** One step of caller [i] from a known line, on a done guard. *)
Ltac one_step :=
  unfold Once.thread_step; cbn [threads];
  rewrite list_lookup_insert_eq by assumption;
  unfold Once.goto, Once.set_thread, Once.os_mutex_lock,
    Once.os_mutex_unlock;
  cbn; rewrite ?list_insert_insert_eq; reflexivity.

Section DoneGuard.

Variables (i : nat) (ths : list thread) (d : W).
Hypothesis Hi : (i < length ths)%nat.

Local Abbreviation at_line p m :=
  (MkSys (<[i := Running p]> ths) OS_THREAD_ONCE_DONE m d).

Lemma done_184 :
  thread_step i (at_line L184_scheduler_state None)
  = Some (at_line L187_lock None).
Proof. one_step. Qed.

Lemma done_187 :
  thread_step i (at_line L187_lock None)
  = Some (at_line L188_if_never (Some i)).
Proof. one_step. Qed.

Lemma done_188 :
  thread_step i (at_line L188_if_never (Some i))
  = Some (at_line L197_while (Some i)).
Proof. one_step. Qed.

Lemma done_197 :
  thread_step i (at_line L197_while (Some i))
  = Some (at_line L204_unlock (Some i)).
Proof. one_step. Qed.

Lemma done_204 :
  thread_step i (at_line L204_unlock (Some i))
  = Some (at_line L217_return None).
Proof. one_step. Qed.

Lemma done_217 :
  thread_step i (at_line L217_return None)
  = Some (MkSys (<[i := Returned 0]> ths) OS_THREAD_ONCE_DONE None d).
Proof. one_step. Qed.

Lemma done_returned :
  thread_step i (MkSys (<[i := Returned 0]> ths) OS_THREAD_ONCE_DONE None d)
  = None.
Proof.
  unfold Once.thread_step; cbn [threads].
  rewrite list_lookup_insert_eq by assumption. reflexivity.
Qed.

Lemma done_caller_returns :
  exec (replicate 11 i) (at_line L184_scheduler_state None)
  = MkSys (<[i := Returned 0]> ths) OS_THREAD_ONCE_DONE None d.
Proof.
  cbn [replicate].
  rewrite exec_cons, done_184; cbn [default from_option id].
  rewrite exec_cons, done_187; cbn [default from_option id].
  rewrite exec_cons, done_188; cbn [default from_option id].
  rewrite exec_cons, done_197; cbn [default from_option id].
  rewrite exec_cons, done_204; cbn [default from_option id].
  rewrite exec_cons, done_217; cbn [default from_option id].
  repeat (rewrite exec_cons, done_returned; cbn [default from_option id]).
  reflexivity.
Qed.

End DoneGuard.

(** A caller that arrives when the guard is done and the mutex free
    returns without touching either. *)
Lemma late_caller_returns pre rest d :
  exec (replicate 11 (length pre))
    (MkSys (pre ++ Running L184_scheduler_state :: rest)
           OS_THREAD_ONCE_DONE None d)
  = MkSys (pre ++ Returned 0 :: rest) OS_THREAD_ONCE_DONE None d.
Proof.
  pose proof (done_caller_returns (length pre)
                (pre ++ Running L184_scheduler_state :: rest) d) as H.
  rewrite !insert_focus in H. apply H.
  rewrite length_app. cbn. lia.
Qed.

Lemma late_callers_return a b d :
  exec (flat_map (fun i => replicate 11 i) (seq a b))
    (MkSys (replicate a (Returned 0)
              ++ replicate b (Running L184_scheduler_state))
           OS_THREAD_ONCE_DONE None d)
  = MkSys (replicate (a + b) (Returned 0)) OS_THREAD_ONCE_DONE None d.
Proof.
  revert a. induction b as [|b IH]; intros a.
  - cbn. rewrite app_nil_r, Nat.add_0_r. reflexivity.
  - cbn [seq flat_map]. rewrite exec_app.
    change (replicate (S b) (Running L184_scheduler_state))
      with (Running L184_scheduler_state
              :: replicate b (Running L184_scheduler_state)).
    pose proof (late_caller_returns (replicate a (Returned 0))
                  (replicate b (Running L184_scheduler_state)) d) as H.
    rewrite length_replicate in H. rewrite H.
    replace (replicate a (Returned 0)
               ++ Returned 0 :: replicate b (Running L184_scheduler_state))
      with (replicate (S a) (Returned 0)
              ++ replicate b (Running L184_scheduler_state)).
    + rewrite IH. f_equal. f_equal. lia.
    + rewrite replicate_S_end, <- app_assoc. reflexivity.
Qed.

Lemma one_by_one_returns k :
  (1 <= k)%nat ->
  exec (one_by_one k) (start k w0)
  = MkSys (replicate k (Returned 0)) OS_THREAD_ONCE_DONE None (routine w0).
Proof.
  destruct k as [|k]; [lia|]. intros _.
  unfold one_by_one, start. cbn [seq flat_map].
  rewrite exec_app.
  change (replicate (S k) (Running L184_scheduler_state))
    with (Running L184_scheduler_state
            :: replicate k (Running L184_scheduler_state)).
  rewrite first_caller_returns.
  apply (late_callers_return 1 k (routine w0)).
Qed.

(** *** Reachable states *)

Lemma exec_reachable sched s : reachable s (exec sched s).
Proof.
  revert s. induction sched as [|i sched IH]; intros s; [apply rtc_refl|].
  cbn [Once.exec].
  destruct (thread_step i s) as [s'|] eqn:E; cbn; [|apply IH].
  eapply rtc_l; [exists i; exact E | apply IH].
Qed.

Lemma inv_reachable k s : reachable (start k w0) s -> inv s.
Proof.
  unfold Once.reachable. revert s.
  apply (rtc_ind_r (fun s => inv s) (start k w0)); [apply inv_start|].
  intros s1 s2 _ [i Hi] IH. eapply inv_step; eassumption.
Qed.

Lemma reachable_length s0 s :
  reachable s0 s -> length (threads s) = length (threads s0).
Proof.
  unfold Once.reachable. revert s.
  apply (rtc_ind_r (fun s => length (threads s) = length (threads s0)) s0);
    [reflexivity|].
  intros s1 s2 _ [i Hi] IH. rewrite <- IH.
  eapply thread_step_length; eassumption.
Qed.

(** Whatever the routine and the interleaving: when all callers of a
    fresh guard have returned, the routine has been applied once. *)
Lemma scheduled_runs_once k s :
  (1 <= k)%nat ->
  reachable (start k w0) s ->
  all_returned s = true ->
  shared s = routine w0
  /\ once s = OS_THREAD_ONCE_DONE
  /\ threads s = replicate k (Returned 0).
Proof.
  intros Hk Hreach Hret.
  pose proof (reachable_length _ _ Hreach) as Hlen.
  cbn in Hlen. rewrite length_replicate in Hlen.
  destruct (inv_all_returned s) as (H1 & H2 & H3).
  - eapply inv_reachable; eassumption.
  - exact Hret.
  - intros E. rewrite E in Hlen. cbn in Hlen. lia.
  - rewrite Hlen in H3. auto.
Qed.

(** *** No deadlock *)

Lemma holder_ok_start k : holder_ok (start k w0).
Proof. intros i Hi. discriminate Hi. Qed.

Lemma holder_ok_step i s s' :
  holder_ok s -> thread_step i s = Some s' -> holder_ok s'.
Proof.
  intros Hh Hstep. unfold Once.thread_step in Hstep.
  destruct (threads s !! i) as [[p|v]|] eqn:Hi; try discriminate.
  assert (Hlen : (i < length (threads s))%nat)
    by (eapply lookup_lt_Some; eassumption).
  assert (Hmine : onceMutex s = Some i -> holding p = true).
  { intros Hm. destruct (Hh i Hm) as (q & Hq & Hhold). congruence. }
  destruct s as [ths o m d]. cbn in *.
  destruct p; cbn in Hstep, Hmine;
    repeat match type of Hstep with
           | context [decide ?P] => destruct (decide P)
           | context [Once.os_mutex_lock _ _] =>
               unfold Once.os_mutex_lock in Hstep; cbn in Hstep;
               destruct m; cbn in Hstep
           end;
    try discriminate Hstep; injection Hstep as <-;
    intros k Hk; cbn in Hk |- *;
    try discriminate Hk;
    (destruct (decide (k = i)) as [->|Hne];
     [ rewrite list_lookup_insert_eq by assumption;
       first [ eexists; split; [reflexivity|reflexivity]
             | specialize (Hmine Hk); discriminate Hmine
             | injection Hk as ->; eexists; split; reflexivity ]
     | rewrite list_lookup_insert_ne by congruence;
       first [ apply (Hh k Hk) | congruence ] ]).
Qed.

Lemma holder_ok_reachable k s : reachable (start k w0) s -> holder_ok s.
Proof.
  unfold Once.reachable. revert s.
  apply (rtc_ind_r (fun s => holder_ok s) (start k w0)); [apply holder_ok_start|].
  intros s1 s2 _ [i Hi] IH. eapply holder_ok_step; eassumption.
Qed.

(** A caller at any line can move when the mutex is free, and the holder
    of the mutex can always move. *)
Lemma running_can_step i p s :
  threads s !! i = Some (Running p) ->
  onceMutex s = None \/ holding p = true ->
  exists s', thread_step i s = Some s'.
Proof.
  intros Hi Hm. unfold Once.thread_step. rewrite Hi.
  destruct s as [ths o m d]. cbn in *.
  destruct p; cbn in *;
    repeat match goal with
           | |- context [decide ?P] => destruct (decide P)
           end;
    try (eexists; reflexivity);
    (destruct Hm as [->|Hm]; [eexists; reflexivity | discriminate Hm]).
Qed.

Lemma some_running (ths : list thread) :
  forallb has_returned ths = false ->
  exists i p, ths !! i = Some (Running p).
Proof.
  induction ths as [|t ths IH]; [discriminate|].
  cbn [forallb]. destruct t as [p|v].
  - intros _. exists 0%nat, p. reflexivity.
  - cbn. intros H. destruct (IH H) as (i & p & Hi).
    exists (S i), p. exact Hi.
Qed.

(** As long as some caller has not returned, some caller can move. *)
Lemma no_deadlock k s :
  reachable (start k w0) s -> all_returned s = false ->
  exists s', step s s'.
Proof.
  intros Hreach Hnot.
  pose proof (holder_ok_reachable k s Hreach) as Hh.
  destruct (onceMutex s) as [i|] eqn:Hm.
  - destruct (Hh i Hm) as (p & Hp & Hhold).
    destruct (running_can_step i p s Hp (or_intror Hhold)) as [s' Hs'].
    exists s', i. exact Hs'.
  - destruct (some_running _ Hnot) as (i & p & Hi).
    destruct (running_can_step i p s Hi (or_introl Hm)) as [s' Hs'].
    exists s', i. exact Hs'.
Qed.

End ScheduledFacts.

(** C3.  [k >= 1] calls on a fresh guard with a routine that increments a
    counter starting at 0.  While the scheduler runs: in every reachable
    state in which all callers have returned, the counter is 1, the guard
    is done and every caller got 0; such a state can be reached; and as
    long as a caller has not returned, some caller can move.  Before the
    scheduler runs, and in the single-threaded build: the [k] calls
    return 0 each and leave the counter at 1 and the guard done. *)
Theorem os_thread_once_runs_once (k : nat) :
  (1 <= k)%nat ->
  (forall s,
      reachable increment (start k 0%nat) s -> all_returned s = true ->
      shared s = 1%nat
      /\ once s = OS_THREAD_ONCE_DONE
      /\ threads s = replicate k (Returned 0))
  /\ (exists s,
        reachable increment (start k 0%nat) s /\ all_returned s = true)
  /\ (forall s,
        reachable increment (start k 0%nat) s -> all_returned s = false ->
        exists s', step increment s s')
  /\ call_times os_thread_once_unscheduled (plain increment) k
       (MkWorld OS_THREAD_ONCE_NEVER 0%nat)
     = Ok (replicate k 0, MkWorld OS_THREAD_ONCE_DONE 1%nat)
  /\ call_times os_thread_once_emscripten (plain increment) k
       (MkWorld OS_THREAD_ONCE_NEVER 0%nat)
     = Ok (replicate k 0, MkWorld OS_THREAD_ONCE_DONE 1%nat).
Proof.
  intros Hk. split; [|split; [|split; [|split]]].
  - intros s Hreach Hret.
    apply (scheduled_runs_once increment 0%nat k s Hk Hreach Hret).
  - exists (exec increment (one_by_one k) (start k 0%nat)).
    split; [apply exec_reachable|].
    rewrite (one_by_one_returns increment 0%nat k Hk).
    unfold all_returned. cbn [threads].
    apply forallb_forall. intros t Ht.
    apply list_elem_of_In, elem_of_replicate in Ht as [-> _]. reflexivity.
  - intros s. apply (no_deadlock increment 0%nat k s).
  - destruct k as [|k]; [lia|].
    apply (call_times_fresh increment os_thread_once_unscheduled k 0%nat).
    + apply unscheduled_first.
    + intros d'. apply unscheduled_done.
  - destruct k as [|k]; [lia|].
    apply (call_times_fresh increment os_thread_once_emscripten k 0%nat).
    + apply emscripten_first.
    + intros d'. apply emscripten_done.
Qed.

(** Three callers; under the scheduler, caller 1 wins the race and caller
    0 polls while the routine runs. *)
Lemma os_thread_once_runs_once_witness :
  let s := exec increment
             [1; 1; 1; 1; 1; 0; 0; 0; 0; 0; 0; 1; 1; 1; 1; 1; 1;
              0; 0; 0; 0; 2; 2; 2; 2; 2; 2]%nat (start 3 0%nat) in
  (1 <= 3)%nat
  /\ reachable increment (start 3 0%nat) s
  /\ all_returned s = true
  /\ shared s = 1%nat
  /\ call_times os_thread_once_unscheduled (plain increment) 3
       (MkWorld OS_THREAD_ONCE_NEVER 0%nat)
     = Ok ([0; 0; 0], MkWorld OS_THREAD_ONCE_DONE 1%nat).
Proof.
  cbv zeta.
  assert (H3 : (1 <= 3)%nat) by lia.
  split; [exact H3|]. split; [apply exec_reachable|].
  split; [reflexivity|]. split.
  - exact (proj1 (proj1 (os_thread_once_runs_once 3 H3) _
                    (exec_reachable increment
                       [1; 1; 1; 1; 1; 0; 0; 0; 0; 0; 0; 1; 1; 1; 1; 1; 1;
                        0; 0; 0; 0; 2; 2; 2; 2; 2; 2]%nat (start 3 0%nat))
                    eq_refl)).
  - exact (proj1 (proj2 (proj2 (proj2 (os_thread_once_runs_once 3 H3))))).
Defined.

(** Three racing callers: caller 1 takes the mutex first and runs the
    routine, caller 0 polls once while the guard is in progress, caller 2
    arrives after the guard is done. *)
Example three_callers_interleaved :
  exec increment
    [1; 1; 1; 1; 1; 0; 0; 0; 0; 0; 0; 1; 1; 1; 1; 1; 1; 0; 0; 0; 0;
     2; 2; 2; 2; 2; 2]%nat
    (start 3 0%nat)
  = MkSys [Returned 0; Returned 0; Returned 0] OS_THREAD_ONCE_DONE None
          1%nat.
Proof. vm_compute. reflexivity. Qed.

(** A caller that wants the mutex while another one holds it stays where
    it is. *)
Example blocked_on_mutex :
  thread_step increment 0%nat
    (MkSys [Running L187_lock; Running L188_if_never]
           OS_THREAD_ONCE_NEVER (Some 1%nat) 0%nat)
  = None.
Proof. reflexivity. Qed.

Section Reentry.

Context {W : Type}.

(** C7, on the code.  With the guard in progress, the branch the
    [__FreeRTOS__] build takes before the scheduler runs returns 0, runs
    nothing and leaves the guard as it is, where the [__EMSCRIPTEN__]
    definition ends in [DIE]; a routine that triggers its own guard
    therefore comes back normally in the former and dies in the latter. *)
Theorem os_thread_once_unscheduled_reentry (r : routine_t W) (d : W) :
  os_thread_once_unscheduled r (MkWorld OS_THREAD_ONCE_INPROGRESS d)
  = Ok (0, MkWorld OS_THREAD_ONCE_INPROGRESS d)
  /\ os_thread_once_emscripten r (MkWorld OS_THREAD_ONCE_INPROGRESS d)
     = Died "Recursive call to os_thread_once."
  /\ os_thread_once_unscheduled (reentrant os_thread_once_unscheduled 1)
       (MkWorld OS_THREAD_ONCE_NEVER d)
     = Ok (0, MkWorld OS_THREAD_ONCE_DONE d)
  /\ os_thread_once_emscripten (reentrant os_thread_once_emscripten 1)
       (MkWorld OS_THREAD_ONCE_NEVER d)
     = Died "Recursive call to os_thread_once.".
Proof. repeat split. Qed.

End Reentry.

End OnceFacts.

(** ** Threads and the task list *)

Module ThreadsFacts.

Import Threads.

Section WithConfig.

Variables configMAX_PRIORITIES sizeof_portSTACK_TYPE size_bits : Z.
Variable UBaseType_bits : Z.
Variable configMAX_PRIORITIES_unsigned : option Z.
Variable pcTaskGetTaskName : list Z -> list Z.
Variable uxTaskGetStackHighWaterMark : Z -> Z.

Local Abbreviation adjust_priority :=
  (Threads.adjust_priority configMAX_PRIORITIES
     configMAX_PRIORITIES_unsigned).
Local Abbreviation to_UBaseType := (Threads.to_UBaseType UBaseType_bits).
Local Abbreviation os_thread_create :=
  (Threads.os_thread_create configMAX_PRIORITIES sizeof_portSTACK_TYPE
     UBaseType_bits configMAX_PRIORITIES_unsigned pcTaskGetTaskName).
Local Abbreviation spawn_all :=
  (Threads.spawn_all configMAX_PRIORITIES sizeof_portSTACK_TYPE
     UBaseType_bits configMAX_PRIORITIES_unsigned pcTaskGetTaskName).
Local Abbreviation to_size_t := (Threads.to_size_t size_bits).
Local Abbreviation os_thread_start := (Threads.os_thread_start size_bits).
Local Abbreviation refresh :=
  (Threads.refresh sizeof_portSTACK_TYPE size_bits
     uxTaskGetStackHighWaterMark).
Local Abbreviation vApplicationIdleHook :=
  (Threads.vApplicationIdleHook sizeof_portSTACK_TYPE size_bits
     uxTaskGetStackHighWaterMark).

(** *** Priority and stack size *)

Lemma os_thread_create_params st g name priority stack_size handle task_new :
  os_thread_create st g name priority stack_size handle task_new
  = (0,
     MkParams (fst (default_name g name (count st)))
              (adjust_stack_size stack_size / sizeof_portSTACK_TYPE)
              (to_UBaseType (adjust_priority priority)),
     MkThreads (snd (default_name g name (count st)))
               (MkTaskList task_new handle
                  (pcTaskGetTaskName (fst (default_name g name (count st))))
                  (adjust_stack_size stack_size)
                :: taskList st)).
Proof.
  unfold Threads.os_thread_create.
  destruct (default_name g name (count st)); reflexivity.
Qed.

(** A value below [2 ^ w] is stored unchanged in an unsigned object of
    [w] bits, and a negative one above [- 2 ^ w] one turn higher. *)
Lemma wrap_unsigned_small w x : 0 <= x < 2 ^ w -> wrap_unsigned w x = x.
Proof. intros H. apply Z.mod_small, H. Qed.

Lemma wrap_unsigned_negative w x :
  - 2 ^ w <= x < 0 -> wrap_unsigned w x = 2 ^ w + x.
Proof.
  intros H. unfold wrap_unsigned. symmetry.
  apply (Z.mod_unique _ _ (-1)); lia.
Qed.

Lemma pow2_from_32 w : 32 <= w -> 2 ^ 32 <= 2 ^ w.
Proof. intros H. apply Z.pow_le_mono_r; lia. Qed.

(** The operand of the comparison, for an [int]: itself when it is not
    negative, and a value of at least [2 ^ 31] when it is negative and
    the comparison is unsigned. *)
Lemma converted_nonnegative priority :
  (forall w, configMAX_PRIORITIES_unsigned = Some w -> 32 <= w) ->
  0 <= priority < 2 ^ 31 ->
  Threads.converted configMAX_PRIORITIES_unsigned priority = priority.
Proof.
  intros Hw Hp. unfold Threads.converted.
  destruct configMAX_PRIORITIES_unsigned as [w|]; [|reflexivity].
  pose proof (pow2_from_32 w (Hw w eq_refl)) as H.
  change (2 ^ 31) with 2147483648 in Hp.
  change (2 ^ 32) with 4294967296 in H.
  apply wrap_unsigned_small. lia.
Qed.

Lemma converted_negative u w priority :
  u = Some w -> 32 <= w ->
  - 2 ^ 31 <= priority < 0 ->
  2 ^ 31 <= Threads.converted u priority.
Proof.
  intros E Hw Hp. unfold Threads.converted. rewrite E.
  pose proof (pow2_from_32 w Hw) as H.
  change (2 ^ 31) with 2147483648 in *.
  change (2 ^ 32) with 4294967296 in H.
  rewrite wrap_unsigned_negative by lia. lia.
Qed.

(** C4, as amended.  For a requested priority in the range of [int], a
    number of priorities that fits both [int] and [UBaseType_t], and a
    macro [configMAX_PRIORITIES] that is either a signed constant or of
    an unsigned type of at least 32 bits: a request of 0 becomes
    [configMAX_PRIORITIES / 2]; a request at or above
    [configMAX_PRIORITIES] becomes [configMAX_PRIORITIES - 1]; a request
    between 1 and [configMAX_PRIORITIES - 1] is passed on as it is; so
    with at least two priority levels every non-negative request reaches
    the kernel in [[1, configMAX_PRIORITIES - 1]].  No test looks for a
    negative request: where the macro is unsigned the comparison takes it
    for a large number and it becomes [configMAX_PRIORITIES - 1]; where
    the macro is signed it is left alone and reaches the kernel's
    unsigned parameter as [2 ^ UBaseType_bits + priority], at or above
    [configMAX_PRIORITIES].  A requested stack size of 0 becomes 2048
    bytes, any other is kept. *)
Theorem os_thread_create_defaults st g name priority stack_size handle
        task_new :
  - 2 ^ 31 <= priority < 2 ^ 31 ->
  1 <= configMAX_PRIORITIES < 2 ^ 31 ->
  configMAX_PRIORITIES <= 2 ^ UBaseType_bits ->
  (forall w, configMAX_PRIORITIES_unsigned = Some w -> 32 <= w) ->
  let params :=
    snd (fst (os_thread_create st g name priority stack_size handle
                task_new)) in
  let st' :=
    snd (os_thread_create st g name priority stack_size handle task_new) in
  (priority = 0 -> uxPriority params = configMAX_PRIORITIES ÷ 2)
  /\ (configMAX_PRIORITIES <= priority ->
      uxPriority params = configMAX_PRIORITIES - 1)
  /\ (0 < priority < configMAX_PRIORITIES ->
      uxPriority params = priority)
  /\ (2 <= configMAX_PRIORITIES -> 0 <= priority ->
      1 <= uxPriority params <= configMAX_PRIORITIES - 1)
  /\ (priority < 0 -> configMAX_PRIORITIES_unsigned <> None ->
      uxPriority params = configMAX_PRIORITIES - 1)
  /\ (priority < 0 -> configMAX_PRIORITIES_unsigned = None ->
      uxPriority params = to_UBaseType priority
      /\ (32 <= UBaseType_bits ->
          uxPriority params = 2 ^ UBaseType_bits + priority
          /\ configMAX_PRIORITIES <= uxPriority params))
  /\ (stack_size = 0 ->
      usStackDepth params = 2048 / sizeof_portSTACK_TYPE
      /\ (unused <$> head (taskList st')) = Some 2048)
  /\ (stack_size <> 0 ->
      usStackDepth params = stack_size / sizeof_portSTACK_TYPE
      /\ (unused <$> head (taskList st')) = Some stack_size).
Proof.
  intros Hint Hmax Hub Hw. cbv zeta. rewrite os_thread_create_params.
  cbn [fst snd uxPriority usStackDepth taskList head fmap option_fmap
         option_map unused].
  change (2 ^ 31) with 2147483648 in *.
  assert (Hhalf : 0 <= configMAX_PRIORITIES ÷ 2 < configMAX_PRIORITIES).
  { split; [apply Z.quot_pos; lia | apply Z.quot_lt; lia]. }
  assert (Hzero : adjust_priority 0 = configMAX_PRIORITIES ÷ 2)
    by reflexivity.
  assert (Hup : configMAX_PRIORITIES <= priority ->
                adjust_priority priority = configMAX_PRIORITIES - 1).
  { intros H. unfold Threads.adjust_priority.
    rewrite converted_nonnegative
      by (try exact Hw; change (2 ^ 31) with 2147483648; lia).
    destruct (Z.eqb_spec priority 0); [lia|].
    destruct (Z.geb_spec priority configMAX_PRIORITIES); [reflexivity|lia]. }
  assert (Hin : 0 < priority < configMAX_PRIORITIES ->
                adjust_priority priority = priority).
  { intros H. unfold Threads.adjust_priority.
    rewrite converted_nonnegative
      by (try exact Hw; change (2 ^ 31) with 2147483648; lia).
    destruct (Z.eqb_spec priority 0); [lia|].
    destruct (Z.geb_spec priority configMAX_PRIORITIES); [lia|reflexivity]. }
  assert (Hneg_u : priority < 0 -> configMAX_PRIORITIES_unsigned <> None ->
                   adjust_priority priority = configMAX_PRIORITIES - 1).
  { intros H U. unfold Threads.adjust_priority.
    destruct configMAX_PRIORITIES_unsigned as [w|] eqn:E; [|contradiction].
    pose proof (converted_negative (Some w) w priority eq_refl
                  (Hw w eq_refl)) as C.
    change (2 ^ 31) with 2147483648 in C. specialize (C ltac:(lia)).
    destruct (Z.eqb_spec priority 0); [lia|].
    destruct (Z.geb_spec (Threads.converted (Some w) priority)
                configMAX_PRIORITIES); [reflexivity|lia]. }
  assert (Hneg_s : priority < 0 -> configMAX_PRIORITIES_unsigned = None ->
                   adjust_priority priority = priority).
  { intros H U. unfold Threads.adjust_priority, Threads.converted.
    rewrite U.
    destruct (Z.eqb_spec priority 0); [lia|].
    destruct (Z.geb_spec priority configMAX_PRIORITIES); [lia|reflexivity]. }
  assert (Hsmall : forall x, 0 <= x < configMAX_PRIORITIES ->
                             to_UBaseType x = x).
  { intros x Hx. apply wrap_unsigned_small. lia. }
  split; [|split; [|split; [|split; [|split; [|split; [|split]]]]]].
  - intros ->. rewrite Hzero. apply Hsmall, Hhalf.
  - intros H. rewrite (Hup H). apply Hsmall. lia.
  - intros H. rewrite (Hin H). apply Hsmall. lia.
  - intros H2 H0.
    destruct (Z.eq_dec priority 0) as [->|Hn].
    + rewrite Hzero, (Hsmall _ Hhalf).
      assert (1 <= configMAX_PRIORITIES ÷ 2)
        by (apply Z.quot_le_lower_bound; lia). lia.
    + destruct (Z_le_dec configMAX_PRIORITIES priority) as [Hge|Hlt].
      * rewrite (Hup Hge), Hsmall by lia. lia.
      * rewrite Hin, Hsmall by lia. lia.
  - intros H U. rewrite (Hneg_u H U). apply Hsmall. lia.
  - intros H U. rewrite (Hneg_s H U). split; [reflexivity|].
    intros H32. pose proof (pow2_from_32 _ H32) as P.
    change (2 ^ 32) with 4294967296 in P.
    unfold Threads.to_UBaseType. rewrite wrap_unsigned_negative by lia.
    split; [reflexivity | lia].
  - intros ->. split; reflexivity.
  - intros H. unfold adjust_stack_size.
    destruct (Z.eqb_spec stack_size 0); [contradiction|].
    split; reflexivity.
Qed.

End WithConfig.

(** Five priority levels: the default, a request above the top, and one
    in range. *)
Lemma os_thread_create_defaults_witness :
  let create p s :=
    snd (fst (Threads.os_thread_create 5 4 32 None (fun n => n) threads_init
                (replicate 10 0) None p s 1 1)) in
  uxPriority (create 0 0) = 2
  /\ uxPriority (create 9 0) = 4
  /\ uxPriority (create 3 0) = 3
  /\ usStackDepth (create 0 0) = 512
  /\ 1 <= uxPriority (create 3 0) <= 5 - 1.
Proof.
  cbv zeta. repeat split; try reflexivity;
  apply (proj1 (proj2 (proj2 (proj2
           (os_thread_create_defaults 5 4 32 None (fun n => n) threads_init
              (replicate 10 0) None 3 0 1 1
              ltac:(split; [discriminate | reflexivity])
              ltac:(split; [discriminate | reflexivity])
              ltac:(discriminate)
              ltac:(intros w H; discriminate H)))))); lia.
Defined.

(** C4 fails for a negative request where [configMAX_PRIORITIES] is a
    signed constant: with five priority levels and a [UBaseType_t] of 32
    bits a request of -1 reaches the kernel as 4294967295, outside
    [[1, 4]]. *)
Lemma os_thread_create_negative_priority :
  let params :=
    snd (fst (Threads.os_thread_create 5 4 32 None (fun n => n) threads_init
                (replicate 10 0) None (-1) 0 1 1)) in
  uxPriority params = 4294967295
  /\ ~ (1 <= uxPriority params <= 5 - 1).
Proof.
  cbv zeta. split; [reflexivity|]. vm_compute. intros [_ H].
  apply H. reflexivity.
Qed.

(** Where the macro is of an unsigned 32-bit type the same request is
    taken for a number above the top and becomes 4. *)
Example os_thread_create_negative_priority_unsigned :
  uxPriority
    (snd (fst (Threads.os_thread_create 5 4 32 (Some 32) (fun n => n)
                 threads_init (replicate 10 0) None (-1) 0 1 1)))
  = 4.
Proof. reflexivity. Qed.

(** On a host with POSIX threads the same requests are not adjusted: the
    stack size goes to the thread library as given, and the priority is
    not used at all. *)
Example os_thread_create_pthread_as_given :
  os_thread_create_pthread (MkHost false false) (fun _ => 0) threads_init
    (replicate 10 0) (Some (chars "worker")) 7 0
  = (0,
     [pthread_attr_init; pthread_attr_setdetachstate;
      pthread_attr_setstacksize 0; pthread_attr_setschedparam 0;
      pthread_attr_setinheritsched; pthread_attr_setschedpolicy;
      pthread_create; pthread_setname_np (chars "worker")],
     threads_init).
Proof. reflexivity. Qed.

(** There a failing call ends the function with the error number. *)
Example os_thread_create_pthread_error :
  os_thread_create_pthread (MkHost false false)
    (fun c => match c with pthread_attr_setstacksize _ => 22 | _ => 0 end)
    threads_init (replicate 10 0) None 0 0
  = (22,
     [pthread_attr_init; pthread_attr_setdetachstate;
      pthread_attr_setstacksize 0],
     MkThreads 1 []).
Proof. reflexivity. Qed.

(** *** Automatic names *)

Section AutoNames.

Variables configMAX_PRIORITIES sizeof_portSTACK_TYPE : Z.
Variable UBaseType_bits : Z.
Variable configMAX_PRIORITIES_unsigned : option Z.
Variable pcTaskGetTaskName : list Z -> list Z.

Local Abbreviation os_thread_create :=
  (Threads.os_thread_create configMAX_PRIORITIES sizeof_portSTACK_TYPE
     UBaseType_bits configMAX_PRIORITIES_unsigned pcTaskGetTaskName).
Local Abbreviation spawn_all :=
  (Threads.spawn_all configMAX_PRIORITIES sizeof_portSTACK_TYPE
     UBaseType_bits configMAX_PRIORITIES_unsigned pcTaskGetTaskName).

(** Whatever the ten bytes held before, the four assignments leave the
    prefix, the two counter characters and a terminator. *)
Lemma auto_name_bytes g c :
  length g = 10%nat ->
  auto_name g c
  = chars "thread."
    ++ [to_uint8 (48 + c / 10); to_uint8 (48 + c mod 10); 0].
Proof.
  intros Hg.
  do 11 (destruct g as [|? g]; try discriminate Hg).
  reflexivity.
Qed.

Lemma default_name_unset g c :
  length g = 10%nat ->
  default_name g None c = (counter_suffixed c, to_uint32 (c + 1)).
Proof.
  intros Hg. unfold default_name, counter_suffixed.
  rewrite (auto_name_bytes g c Hg). reflexivity.
Qed.

Lemma low_char c : 0 <= c -> to_uint8 (48 + c mod 10) = 48 + c mod 10.
Proof.
  intros Hc. unfold to_uint8, wrap_unsigned.
  pose proof (Z.mod_pos_bound c 10 eq_refl).
  apply Z.mod_small. change (2 ^ 8) with 256. lia.
Qed.

Lemma high_char c : 0 <= c < 2080 -> to_uint8 (48 + c / 10) = 48 + c / 10.
Proof.
  intros Hc. unfold to_uint8, wrap_unsigned.
  assert (0 <= c / 10 < 208).
  { split; [apply Z.div_pos; lia | apply Z.div_lt_upper_bound; lia]. }
  apply Z.mod_small. change (2 ^ 8) with 256. lia.
Qed.

(** Up to 2079 the name is the prefix and two characters; at 2080 the
    first of them is [NUL] and the name is the bare prefix. *)
Lemma counter_suffixed_two c :
  0 <= c < 2080 ->
  counter_suffixed c = chars "thread." ++ [48 + c / 10; 48 + c mod 10].
Proof.
  intros Hc. unfold counter_suffixed.
  rewrite high_char, low_char by lia.
  assert (0 <= c / 10) by (apply Z.div_pos; lia).
  pose proof (Z.mod_pos_bound c 10 eq_refl).
  cbn. destruct (Z.eqb_spec (48 + c / 10) 0); [lia|].
  destruct (Z.eqb_spec (48 + c mod 10) 0); [lia|]. reflexivity.
Qed.

Lemma counter_suffixed_2080 : counter_suffixed 2080 = chars "thread.".
Proof. reflexivity. Qed.

Lemma counter_suffixed_inj c1 c2 :
  0 <= c1 <= 2080 -> 0 <= c2 <= 2080 ->
  counter_suffixed c1 = counter_suffixed c2 -> c1 = c2.
Proof.
  intros H1 H2 E.
  destruct (Z.eq_dec c1 2080) as [->|N1];
    destruct (Z.eq_dec c2 2080) as [->|N2]; [reflexivity| | |].
  - rewrite counter_suffixed_2080, counter_suffixed_two in E by lia.
    discriminate E.
  - rewrite counter_suffixed_2080, counter_suffixed_two in E by lia.
    discriminate E.
  - rewrite !counter_suffixed_two in E by lia.
    injection E as Eh El.
    rewrite (Z.div_mod c1 10), (Z.div_mod c2 10) by lia. lia.
Qed.

Lemma spawn_all_cons st rq reqs :
  spawn_all st (rq :: reqs)
  = let r := os_thread_create st (rq_garbage rq) (rq_name rq)
               (rq_priority rq) (rq_stack_size rq) (rq_handle rq)
               (rq_task_new rq) in
    (snd (fst r) :: fst (spawn_all (snd r) reqs),
     snd (spawn_all (snd r) reqs)).
Proof.
  cbn [Threads.spawn_all].
  destruct (os_thread_create _ _ _ _ _ _ _) as [[ret params] st'].
  cbn [fst snd]. destruct (spawn_all st' reqs). reflexivity.
Qed.

Lemma spawn_all_auto st reqs :
  Forall ten_bytes reqs ->
  0 <= count st ->
  count st + Z.of_nat (length (List.filter unnamed_call reqs)) <= 2081 ->
  let names := auto_names reqs (fst (spawn_all st reqs)) in
  NoDup names
  /\ Forall (fun nm => exists c,
                count st <= c <= 2080 /\ nm = counter_suffixed c) names
  /\ count (snd (spawn_all st reqs))
     = count st + Z.of_nat (length (List.filter unnamed_call reqs)).
Proof.
  cbv zeta. revert st.
  induction reqs as [|rq reqs IH]; intros st Hall H0 Hn.
  - cbn. repeat split; [constructor | constructor | lia].
  - apply Forall_cons_1 in Hall as [Hg Hall].
    rewrite spawn_all_cons. cbv zeta.
    rewrite os_thread_create_params.
    cbn [fst snd auto_names List.filter] in *.
    unfold unnamed_call in *. destruct (rq_name rq) as [nm|].
    + (* an explicit name: the counter stays *)
      cbn [default_name fst snd app] in *.
      set (st1 := MkThreads (count st) _).
      apply (IH st1 Hall); subst st1; cbn; lia.
    + (* no name: the counter names the thread and moves on *)
      rewrite (default_name_unset _ _ Hg).
      cbn [fst snd pcName length app] in *.
      assert (Hc : to_uint32 (count st + 1) = count st + 1).
      { unfold to_uint32, wrap_unsigned. apply Z.mod_small.
        change (2 ^ 32) with 4294967296. lia. }
      rewrite Hc.
      set (st1 := MkThreads (count st + 1) _).
      destruct (IH st1 Hall) as (Hnd & Hnames & Hcount);
        [subst st1; cbn; lia | subst st1; cbn; lia |].
      replace (count st1) with (count st + 1) in * by reflexivity.
      repeat split.
      * constructor; [|exact Hnd].
        intros Hin. rewrite Forall_forall in Hnames.
        destruct (Hnames _ Hin) as (c & Hc' & E).
        apply counter_suffixed_inj in E; lia.
      * constructor; [exists (count st); split; [lia|reflexivity]|].
        eapply Forall_impl; [exact Hnames|].
        cbn beta. intros nm (c & Hc' & E). exists c. split; [lia|exact E].
      * lia.
Qed.


End AutoNames.



(** Nor is an automatic name compared with explicit ones: a thread
    created as ["thread.00"] and the first unnamed one bear the same
    name. *)
Example explicit_name_clash :
  map pcName
    (fst (Threads.spawn_all 5 4 32 None (fun n => n) threads_init
            [MkRequest (replicate 10 0) (Some (chars "thread.00")) 0 0 7 7;
             unnamed 0]))
  = [chars "thread.00"; chars "thread.00"].
Proof. reflexivity. Qed.

(** *** The idle hook *)

Section IdleHook.

Variables sizeof_portSTACK_TYPE size_bits : Z.
Variable uxTaskGetStackHighWaterMark : Z -> Z.

Local Abbreviation to_size_t := (Threads.to_size_t size_bits).
Local Abbreviation os_thread_start := (Threads.os_thread_start size_bits).
Local Abbreviation refresh :=
  (Threads.refresh sizeof_portSTACK_TYPE size_bits
     uxTaskGetStackHighWaterMark).
Local Abbreviation vApplicationIdleHook :=
  (Threads.vApplicationIdleHook sizeof_portSTACK_TYPE size_bits
     uxTaskGetStackHighWaterMark).

Lemma marked_spec e : marked e = true <-> reclaimable e.
Proof. unfold marked, reclaimable. apply Z.eqb_eq. Qed.

Lemma sweep_kept tl :
  fst (sweep tl) = List.filter (fun e => negb (marked e)) tl.
Proof.
  induction tl as [|e tl IH]; [reflexivity|].
  cbn [sweep List.filter]. destruct (sweep tl) as [kept freed].
  cbn [fst] in IH. unfold marked at 1.
  destruct (unused e =? DELETED_TASK_MAGIC); cbn; congruence.
Qed.

Lemma sweep_freed tl : snd (sweep tl) = map node (List.filter marked tl).
Proof.
  induction tl as [|e tl IH]; [reflexivity|].
  cbn [sweep List.filter]. destruct (sweep tl) as [kept freed].
  cbn [snd] in IH. unfold marked at 1.
  destruct (unused e =? DELETED_TASK_MAGIC); cbn; congruence.
Qed.

Lemma vApplicationIdleHook_unfold tl :
  vApplicationIdleHook tl
  = (map refresh (List.filter (fun e => negb (marked e)) tl),
     map node (List.filter marked tl)).
Proof.
  unfold Threads.vApplicationIdleHook.
  rewrite <- sweep_kept, <- sweep_freed. destruct (sweep tl); reflexivity.
Qed.

Lemma refresh_node e : node (refresh e) = node e.
Proof. unfold Threads.refresh. destruct (task e =? 0); reflexivity. Qed.

Lemma refresh_task e : task (refresh e) = task e.
Proof. unfold Threads.refresh. destruct (task e =? 0); reflexivity. Qed.

Lemma refresh_name e : name (refresh e) = name e.
Proof. unfold Threads.refresh. destruct (task e =? 0); reflexivity. Qed.

Lemma refresh_unused e :
  unused (refresh e)
  = if task e =? 0 then unused e
    else to_size_t (uxTaskGetStackHighWaterMark (task e)
                    * sizeof_portSTACK_TYPE).
Proof. unfold Threads.refresh. destruct (task e =? 0); reflexivity. Qed.

Lemma map_node_refresh tl : map node (map refresh tl) = map node tl.
Proof.
  rewrite map_map. apply map_ext. intros e. apply refresh_node.
Qed.

(** With distinct record addresses, a record that is filtered out leaves
    no record of its address behind. *)
Lemma address_gone (f : TaskList -> bool) tl e :
  List.NoDup (map node tl) -> In e tl -> f e = false ->
  ~ In (node e) (map node (List.filter f tl)).
Proof.
  induction tl as [|x tl IH]; intros Hnd Hin Hf; [destruct Hin|].
  cbn [map] in Hnd. apply List.NoDup_cons_iff in Hnd as [Hx Hnd].
  cbn [List.filter]. destruct Hin as [->|Hin].
  - rewrite Hf. intros H. apply Hx.
    apply in_map_iff in H as (y & Ey & Hy).
    apply filter_In in Hy as [Hy _].
    rewrite <- Ey. apply in_map. exact Hy.
  - specialize (IH Hnd Hin Hf).
    destruct (f x); [|exact IH].
    cbn [map]. intros [E|H]; [|contradiction].
    apply Hx. rewrite E. apply in_map. exact Hin.
Qed.

(** C6.  One run of the idle hook over a task list whose records have
    distinct addresses.  The records it frees are exactly those holding
    [DELETED_TASK_MAGIC], and none of them is in the list afterwards.
    Every other record is still there, in the same order, with the same
    task and name; if it has a task handle, its [unused] field now holds
    the task's stack high-water mark in bytes (as a [size_t]), otherwise
    the field is untouched. *)
Theorem vApplicationIdleHook_cycle tl :
  NoDup (map node tl) ->
  let tl' := fst (vApplicationIdleHook tl) in
  let freed := snd (vApplicationIdleHook tl) in
  (forall e, In e tl -> reclaimable e ->
             In (node e) freed /\ ~ present (node e) tl')
  /\ (forall a, In a freed ->
                exists e, In e tl /\ node e = a /\ reclaimable e)
  /\ (forall e, In e tl -> ~ reclaimable e ->
        exists e', In e' tl'
          /\ node e' = node e /\ task e' = task e /\ name e' = name e
          /\ (task e <> 0 ->
               unused e'
               = to_size_t (uxTaskGetStackHighWaterMark (task e)
                            * sizeof_portSTACK_TYPE))
          /\ (task e = 0 -> unused e' = unused e))
  /\ map node tl'
     = map node (List.filter (fun e => negb (marked e)) tl).
Proof.
  intros Hnd. apply NoDup_ListNoDup in Hnd.
  cbv zeta. rewrite vApplicationIdleHook_unfold.
  cbn [fst snd]. split; [|split; [|split]].
  - intros e Hin Hm. apply marked_spec in Hm. split.
    + apply in_map, filter_In. split; assumption.
    + unfold present. rewrite map_node_refresh.
      apply address_gone; [assumption..|]. rewrite Hm. reflexivity.
  - intros a Ha. apply in_map_iff in Ha as (e & Ee & He).
    apply filter_In in He as [He Hm]. exists e.
    split; [exact He|]. split; [exact Ee|]. apply marked_spec, Hm.
  - intros e Hin Hm. exists (refresh e). split.
    + apply in_map, filter_In. split; [exact Hin|].
      destruct (marked e) eqn:E; [|reflexivity].
      exfalso. apply Hm, marked_spec, E.
    + rewrite refresh_node, refresh_task, refresh_name, refresh_unused.
      repeat split.
      * intros Ht. destruct (Z.eqb_spec (task e) 0); [contradiction|].
        reflexivity.
      * intros Ht. rewrite Ht. reflexivity.
  - apply map_node_refresh.
Qed.

(** The value written on exit is seen by the sweep when [size_t] has at
    least 32 bits. *)
Lemma to_size_t_magic :
  32 <= size_bits -> to_size_t DELETED_TASK_MAGIC = DELETED_TASK_MAGIC.
Proof.
  intros Hw. unfold Threads.to_size_t, wrap_unsigned.
  apply Z.mod_small. split; [discriminate|].
  apply Z.lt_le_trans with (2 ^ 32); [reflexivity|].
  apply Z.pow_le_mono_r; lia.
Qed.

(** When the entry function of task [h] returns, the first record of [h]
    becomes reclaimable; records in front of it are untouched. *)
Lemma os_thread_start_marks h tl e :
  32 <= size_bits -> h <> 0 ->
  In e tl -> task e = h ->
  exists e', In e' (os_thread_start h tl)
             /\ task e' = 0 /\ reclaimable e'
             /\ map node (os_thread_start h tl) = map node tl.
Proof.
  intros Hw Hh. induction tl as [|x tl IH]; intros Hin Ht; [destruct Hin|].
  cbn [Threads.os_thread_start].
  destruct (Z.eqb_spec (task x) h) as [Ex|Nx].
  - eexists. split; [left; reflexivity|]. cbn.
    split; [reflexivity|]. split; [|reflexivity].
    unfold reclaimable; cbn. apply to_size_t_magic, Hw.
  - destruct Hin as [->|Hin]; [contradiction|].
    destruct (IH Hin Ht) as (e' & He' & H1 & H2 & H3).
    exists e'. split; [right; exact He'|]. split; [exact H1|].
    split; [exact H2|]. cbn [map]. rewrite H3. reflexivity.
Qed.

End IdleHook.

(** A list of three records on a 32-bit port with four-byte stack words:
    the task of the middle record has exited. *)
Lemma vApplicationIdleHook_cycle_witness :
  let tl := [MkTaskList 100 11 (chars "thread.02") 2048;
             MkTaskList 200 0 (chars "thread.01") DELETED_TASK_MAGIC;
             MkTaskList 300 13 (chars "thread.00") 2048] in
  let hwm := fun h => h * 10 in
  NoDup (map node tl)
  /\ Threads.vApplicationIdleHook 4 32 hwm tl
     = ([MkTaskList 100 11 (chars "thread.02") 440;
         MkTaskList 300 13 (chars "thread.00") 520], [200])
  /\ ~ present 200 (fst (Threads.vApplicationIdleHook 4 32 hwm tl)).
Proof.
  cbv zeta.
  assert (Hnd : NoDup [100; 200; 300]).
  { apply NoDup_ListNoDup. repeat constructor; cbn; intuition discriminate. }
  split; [exact Hnd|]. split; [reflexivity|].
  refine (proj2 (proj1 (vApplicationIdleHook_cycle 4 32 (fun h => h * 10)
                          [MkTaskList 100 11 (chars "thread.02") 2048;
                           MkTaskList 200 0 (chars "thread.01")
                             DELETED_TASK_MAGIC;
                           MkTaskList 300 13 (chars "thread.00") 2048]
                          Hnd)
                   (MkTaskList 200 0 (chars "thread.01") DELETED_TASK_MAGIC)
                   _ _)).
  - right. left. reflexivity.
  - reflexivity.
Defined.

(** Three threads are created with default name, priority and stack size;
    all three entry functions return; one idle cycle empties the list. *)
Example three_threads_reclaimed :
  let st := snd (Threads.spawn_all 5 4 32 None (fun n => n) threads_init
                   [unnamed 0; unnamed 1; unnamed 2]) in
  map name (taskList st)
  = [chars "thread.02"; chars "thread.01"; chars "thread.00"]
  /\ Threads.vApplicationIdleHook 4 32 (fun h => h * 10)
       (Threads.os_thread_start 32 1
          (Threads.os_thread_start 32 2
             (Threads.os_thread_start 32 3 (taskList st))))
     = ([], [3; 2; 1]).
Proof. cbv zeta. split; reflexivity. Qed.

End ThreadsFacts.

(** ** Program entry *)

Module BootstrapFacts.

Import Bootstrap.

Section WithApplication.

Variable appl_main : Z -> list string -> option Z.
Variables configMAX_PRIORITIES : Z.
Variables sizeof_portSTACK_TYPE UBaseType_bits : Z.
Variables config_main_thread_priority config_main_thread_stack_size : Z.
Variable TARGET_LPC11Cxx : bool.
Variables STDIN_DEVICE STDOUT_DEVICE STDERR_DEVICE : string.
Variable open_fails : string -> bool.

Local Abbreviation main :=
  (Bootstrap.main appl_main configMAX_PRIORITIES
     sizeof_portSTACK_TYPE UBaseType_bits
     config_main_thread_priority config_main_thread_stack_size
     TARGET_LPC11Cxx STDIN_DEVICE STDOUT_DEVICE STDERR_DEVICE open_fails).

(** C8.  In a build without [__FreeRTOS__], [main] makes at most one call
    before the application's, [WSAStartup] under [__WIN32__]; it then
    calls [appl_main] with its own [argc] and [argv], and its exit status
    is what [appl_main] returned. *)
Theorem main_hosted (b : build) (argc : Z) (argv : list string) :
  b <> FreeRTOS_build ->
  snd (main b argc argv) = appl_main argc argv
  /\ exists setup,
      fst (main b argc argv) = setup ++ [call_appl_main argc argv]
      /\ (setup = [] \/ setup = [call_WSAStartup])
      /\ (b = WIN32_build <-> setup = [call_WSAStartup]).
Proof.
  intros Hb. destruct b; [contradiction| |].
  - split; [reflexivity|]. exists [call_WSAStartup].
    repeat split; auto.
  - split; [reflexivity|]. exists [].
    repeat split; auto; discriminate.
Qed.

(** Under [__FreeRTOS__] the function hands over to the scheduler and has
    no exit status. *)
Lemma main_FreeRTOS argc argv :
  snd (main FreeRTOS_build argc argv) = None
  /\ List.last (fst (main FreeRTOS_build argc argv)) call_hw_init
     = call_vTaskStartScheduler.
Proof.
  split; [reflexivity|]. cbn [Bootstrap.main fst].
  match goal with
  | |- context [[?x; ?y; call_vTaskStartScheduler]] =>
      change [x; y; call_vTaskStartScheduler]
        with ([x; y] ++ [call_vTaskStartScheduler])
  end.
  rewrite !app_assoc. apply last_last.
Qed.

End WithApplication.

Lemma main_hosted_witness :
  let appl := fun argc (argv : list string) =>
                Some (argc + Z.of_nat (length argv)) in
  hosted_build <> FreeRTOS_build
  /\ Bootstrap.main appl 5 4 32 1 2048 false "/dev/ser0" "/dev/ser0"
       "/dev/ser0" (fun _ => false) hosted_build 2 ["nmranet"; "-x"]
     = ([call_appl_main 2 ["nmranet"; "-x"]], Some 4)
  /\ snd (Bootstrap.main appl 5 4 32 1 2048 false "/dev/ser0" "/dev/ser0"
            "/dev/ser0" (fun _ => false) hosted_build 2 ["nmranet"; "-x"])
     = appl 2 ["nmranet"; "-x"].
Proof.
  cbv zeta.
  assert (H : hosted_build <> FreeRTOS_build) by discriminate.
  split; [exact H|]. split; [reflexivity|].
  exact (proj1 (main_hosted _ 5 4 32 1 2048 false "/dev/ser0" "/dev/ser0"
                  "/dev/ser0" (fun _ => false) hosted_build 2
                  ["nmranet"; "-x"] H)).
Defined.

End BootstrapFacts.

(** * Further properties *)

(** ** The clock *)

Module ClockMore.

Import Clock Runs CIntFacts ClockFacts.

Section WithShift.

Variable NSEC_TO_TICK_SHIFT : Z.

Local Abbreviation source_time := (Clock.source_time NSEC_TO_TICK_SHIFT).
Local Abbreviation os_get_time_monotonic :=
  (Clock.os_get_time_monotonic NSEC_TO_TICK_SHIFT).
Local Abbreviation calls := (Clock.calls NSEC_TO_TICK_SHIFT).
Local Abbreviation clock_after := (Runs.clock_after NSEC_TO_TICK_SHIFT).

Lemma successor_differs x : is_long_long x -> to_long_long (x + 1) <> x.
Proof.
  intros Hx. destruct (Z.eq_dec x LLONG_MAX) as [->|Hne].
  - vm_compute. discriminate.
  - rewrite to_long_long_id; [lia|].
    unfold is_long_long, LLONG_MAX in *. lia.
Qed.

Lemma os_get_time_monotonic_moves st r :
  is_long_long (last st) -> fst (os_get_time_monotonic st r) <> last st.
Proof.
  intros Hr. rewrite os_get_time_monotonic_unfold. cbn [fst].
  destruct (Z.leb_spec (source_time st r) (last st)).
  - apply successor_differs, Hr.
  - lia.
Qed.

(** X1.  No call returns the value the call before it returned: the value
    returned always differs from the [last] the call found, also when
    [last] is [LLONG_MAX] and the increment wraps. *)
Theorem os_get_time_monotonic_never_repeats st rs :
  is_long_long (last st) ->
  Forall (fun c => returned c <> seen c) (calls st rs).
Proof.
  revert st. induction rs as [|r rs IH]; intros st Hr; [constructor|].
  rewrite calls_cons. constructor.
  - cbn [returned seen]. apply os_get_time_monotonic_moves, Hr.
  - apply IH. rewrite os_get_time_monotonic_stored.
    apply os_get_time_monotonic_range.
Qed.

Lemma to_int_range m : - 2 ^ 31 <= to_int m < 2 ^ 31.
Proof.
  unfold to_int, wrap_signed. change (2 ^ (32 - 1)) with 2147483648.
  change (2 ^ 32) with 4294967296. change (2 ^ 31) with 2147483648.
  pose proof (Z.mod_pos_bound (m + 2147483648) 4294967296 eq_refl). lia.
Qed.

Lemma to_int_low m : 0 <= m < 2 ^ 31 -> to_int m = m.
Proof.
  unfold to_int, wrap_signed. change (2 ^ (32 - 1)) with 2147483648.
  change (2 ^ 32) with 4294967296. change (2 ^ 31) with 2147483648.
  intros H. rewrite Z.mod_small by lia. lia.
Qed.

Lemma to_int_high m : 2 ^ 31 <= m < 2 ^ 32 -> to_int m = m - 2 ^ 32.
Proof.
  unfold to_int, wrap_signed. change (2 ^ (32 - 1)) with 2147483648.
  change (2 ^ 32) with 4294967296. change (2 ^ 31) with 2147483648.
  intros H.
  assert (E : (m + 2147483648) mod 4294967296 = m - 2147483648)
    by (symmetry; apply (Z.mod_unique _ _ 1); lia).
  lia.
Qed.

Lemma arduino_step st m :
  last_millis st = 0 -> overflow_millis st = 0 ->
  source_time st (ARDUINO_millis m) = to_int m * 1000000
  /\ last_millis (snd (os_get_time_monotonic st (ARDUINO_millis m))) = 0
  /\ overflow_millis (snd (os_get_time_monotonic st (ARDUINO_millis m))) = 0.
Proof.
  intros Hl Ho.
  assert (Hlt : (to_uint32 (to_int m) <? last_millis st) = false).
  { rewrite Hl. apply Z.ltb_ge. unfold to_uint32, wrap_unsigned.
    apply Z.mod_pos_bound. reflexivity. }
  pose proof (to_int_range m) as Hr. change (2 ^ 31) with 2147483648 in Hr.
  split; [|split].
  - unfold Clock.source_time. cbn [read_source snd]. rewrite Hlt, Ho.
    change (Z.shiftl 0 32) with 0. change (to_long_long 0) with 0.
    rewrite Z.add_0_l.
    rewrite (to_long_long_id (to_int m))
      by (unfold is_long_long, LLONG_MIN, LLONG_MAX; lia).
    apply to_long_long_id. unfold is_long_long, LLONG_MIN, LLONG_MAX. lia.
  - unfold Clock.os_get_time_monotonic. cbn [read_source].
    rewrite Hlt. cbn. exact Hl.
  - unfold Clock.os_get_time_monotonic. cbn [read_source].
    rewrite Hlt. cbn. exact Ho.
Qed.

Lemma arduino_run st ms :
  last_millis st = 0 -> overflow_millis st = 0 ->
  overflow_millis (clock_after st (map ARDUINO_millis ms)) = 0
  /\ Forall2 (fun c m => reading c = to_int m * 1000000)
       (calls st (map ARDUINO_millis ms)) ms.
Proof.
  revert st. induction ms as [|m ms IH]; intros st Hl Ho.
  - split; [exact Ho | constructor].
  - destruct (arduino_step st m Hl Ho) as (Ht & Hl' & Ho').
    destruct (IH _ Hl' Ho') as [H1 H2].
    cbn [map Runs.clock_after]. rewrite calls_cons.
    split; [exact H1|]. constructor; [exact Ht | exact H2].
Qed.

(** X2.  In the [ARDUINO] branch a wrap of [millis()] is never counted:
    [last_millis] is never assigned, so the overflow counter stays 0.
    The reading is held in an [int]: for [millis()] below [2^31] the
    converted reading is [millis() * 1000000], and from [2^31] on (after
    about 24.8 days) it is [(millis() - 2^32) * 1000000], a negative
    time. *)
Theorem arduino_overflow_never_counted ms :
  Forall (fun m => 0 <= m < 2 ^ 32) ms ->
  overflow_millis (clock_after clock_init (map ARDUINO_millis ms)) = 0
  /\ Forall2 (fun c m =>
                (m < 2 ^ 31 -> reading c = m * 1000000)
                /\ (2 ^ 31 <= m ->
                    reading c = (m - 2 ^ 32) * 1000000 /\ reading c < 0))
       (calls clock_init (map ARDUINO_millis ms)) ms.
Proof.
  intros Hms.
  destruct (arduino_run clock_init ms eq_refl eq_refl) as [H1 H2].
  split; [exact H1|]. clear H1.
  revert Hms H2. generalize (calls clock_init (map ARDUINO_millis ms)).
  intros cs Hms H2. induction H2 as [|c m cs ms Hc _ IH]; [constructor|].
  apply Forall_cons_1 in Hms as [Hm Hms].
  constructor; [|exact (IH Hms)].
  split.
  - intros Hlo. rewrite Hc, to_int_low by lia. reflexivity.
  - intros Hhi. rewrite Hc, to_int_high by lia.
    split; [reflexivity|]. change (2 ^ 32) with 4294967296 in *. lia.
Qed.

(** X3.  In the POSIX branch the conversion is exact for every time up to
    9223372035.999999999 s: no 64-bit wrap occurs and the converted
    reading is [tv_sec * 1000000000 + tv_nsec]. *)
Theorem posix_reading_exact st tv_sec tv_nsec :
  0 <= tv_sec <= 9223372035 -> 0 <= tv_nsec <= 999999999 ->
  source_time st (POSIX_timespec tv_sec tv_nsec)
  = tv_sec * 1000000000 + tv_nsec.
Proof.
  intros Hs Hn. unfold Clock.source_time. cbn [read_source snd].
  rewrite (to_long_long_id (tv_sec * 1000000000))
    by (unfold is_long_long, LLONG_MIN, LLONG_MAX; lia).
  apply to_long_long_id. unfold is_long_long, LLONG_MIN, LLONG_MAX. lia.
Qed.

Lemma freertos_exact st tick partial :
  0 <= NSEC_TO_TICK_SHIFT <= 30 -> 0 <= tick < 2 ^ 32 ->
  0 <= partial < 2 ^ NSEC_TO_TICK_SHIFT ->
  source_time st (FreeRTOS_ticks tick partial)
  = tick * 2 ^ NSEC_TO_TICK_SHIFT + partial.
Proof.
  intros Hs Ht Hp. unfold Clock.source_time. cbn [read_source snd].
  rewrite Z.shiftl_mul_pow2 by lia.
  assert (Hpow : 0 < 2 ^ NSEC_TO_TICK_SHIFT <= 2 ^ 30).
  { split; [apply Z.pow_pos_nonneg; lia|].
    apply Z.pow_le_mono_r; lia. }
  change (2 ^ 30) with 1073741824 in Hpow.
  change (2 ^ 32) with 4294967296 in Ht.
  assert (0 <= tick * 2 ^ NSEC_TO_TICK_SHIFT <= 4294967295 * 1073741824)
    by nia.
  rewrite (to_long_long_id (tick * 2 ^ NSEC_TO_TICK_SHIFT))
    by (unfold is_long_long, LLONG_MIN, LLONG_MAX; lia).
  apply to_long_long_id. unfold is_long_long, LLONG_MIN, LLONG_MAX. lia.
Qed.

(** X4.  In the [__FreeRTOS__] branch, for a 32-bit tick count, a shift
    of at most 30 and a partial-tick correction that stays below one
    tick, the converted reading is [tick * 2^shift + partial] without
    wrap, and a later tick always converts to a larger reading, whatever
    the two corrections are. *)
Theorem freertos_reading_ordered st1 st2 tick1 partial1 tick2 partial2 :
  0 <= NSEC_TO_TICK_SHIFT <= 30 ->
  0 <= tick1 < tick2 -> tick2 < 2 ^ 32 ->
  0 <= partial1 < 2 ^ NSEC_TO_TICK_SHIFT ->
  0 <= partial2 < 2 ^ NSEC_TO_TICK_SHIFT ->
  source_time st1 (FreeRTOS_ticks tick1 partial1)
  = tick1 * 2 ^ NSEC_TO_TICK_SHIFT + partial1
  /\ source_time st2 (FreeRTOS_ticks tick2 partial2)
     = tick2 * 2 ^ NSEC_TO_TICK_SHIFT + partial2
  /\ source_time st1 (FreeRTOS_ticks tick1 partial1)
     < source_time st2 (FreeRTOS_ticks tick2 partial2).
Proof.
  intros Hs Ht1 Ht2 Hp1 Hp2.
  rewrite !freertos_exact by lia.
  split; [reflexivity|]. split; [reflexivity|]. nia.
Qed.

Lemma clockmul_step st r :
  clockmul st <> 0 ->
  clockmul (snd (os_get_time_monotonic st r)) = clockmul st.
Proof.
  intros Hm. unfold Clock.os_get_time_monotonic.
  destruct r; cbn [read_source]; cbn [set_last clockmul snd]; try reflexivity.
  destruct (Z.eqb_spec (clockmul st) 0); [contradiction|reflexivity].
Qed.

(** X5.  In the [ESP_NONOS] branch the calibration is taken once: as
    soon as the stored multiplier is not 0, no later call changes it, and
    the converted reading of a call is [(rtc * multiplier) >> 2] whatever
    [system_rtc_clock_cali_proc] would answer. *)
Theorem esp_calibrated_once st rs cali cali' rtc :
  clockmul st <> 0 ->
  clockmul (clock_after st rs) = clockmul st
  /\ source_time (clock_after st rs) (ESP_NONOS_rtc cali rtc)
     = source_time (clock_after st rs) (ESP_NONOS_rtc cali' rtc)
  /\ source_time (clock_after st rs) (ESP_NONOS_rtc cali rtc)
     = Z.shiftr (to_long_long (to_long_long rtc * clockmul st)) 2.
Proof.
  intros Hm.
  assert (H : clockmul (clock_after st rs) = clockmul st).
  { revert st Hm. induction rs as [|r rs IH]; intros st Hm; [reflexivity|].
    cbn [Runs.clock_after]. rewrite IH by (rewrite clockmul_step; exact Hm).
    apply clockmul_step, Hm. }
  split; [exact H|].
  unfold Clock.source_time. cbn [read_source snd]. rewrite H.
  destruct (Z.eqb_spec (clockmul st) 0); [contradiction|].
  split; reflexivity.
Qed.

End WithShift.

(** The first call calibrates with 5000; a later answer of 9999 is not
    looked at. *)
Lemma esp_calibrated_once_witness :
  let st := snd (Clock.os_get_time_monotonic 20 clock_init
                   (ESP_NONOS_rtc 5000 100)) in
  clockmul st = 4882 /\ clockmul st <> 0
  /\ Clock.source_time 20 st (ESP_NONOS_rtc 9999 200) = 244100.
Proof.
  cbv zeta. split; [reflexivity|].
  assert (H : clockmul (snd (Clock.os_get_time_monotonic 20 clock_init
                               (ESP_NONOS_rtc 5000 100))) <> 0)
    by (vm_compute; discriminate).
  split; [exact H|].
  pose proof (proj2 (proj2 (esp_calibrated_once 20 _ [] 9999 0 200 H)))
    as E.
  cbn [Runs.clock_after] in E. rewrite E. reflexivity.
Defined.

Lemma os_get_time_monotonic_never_repeats_witness :
  let st := MkClock LLONG_MAX 0 0 0 in
  is_long_long (last st)
  /\ map returned (calls 20 st [POSIX_timespec 0 5; POSIX_timespec 0 5])
     = [LLONG_MIN; 5]
  /\ Forall (fun c => returned c <> seen c)
       (calls 20 st [POSIX_timespec 0 5; POSIX_timespec 0 5]).
Proof.
  cbv zeta.
  assert (H : is_long_long LLONG_MAX) by (vm_compute; split; discriminate).
  split; [exact H|]. split; [vm_compute; reflexivity|].
  apply (os_get_time_monotonic_never_repeats 20 (MkClock LLONG_MAX 0 0 0)).
  exact H.
Defined.

(** [millis()] runs from 2147483647 over 4294967295 and wraps to 3: the
    counter of overflows stays 0, and the two readings of the upper half
    are negative times. *)
Lemma arduino_overflow_never_counted_witness :
  Forall (fun m => 0 <= m < 2 ^ 32) [2147483647; 2147483648; 4294967295; 3]
  /\ map reading
       (calls 20 clock_init
          (map ARDUINO_millis [2147483647; 2147483648; 4294967295; 3]))
     = [2147483647000000; -2147483648000000; -1000000; 3000000]
  /\ overflow_millis
       (clock_after 20 clock_init
          (map ARDUINO_millis [2147483647; 2147483648; 4294967295; 3])) = 0.
Proof.
  assert (H : Forall (fun m => 0 <= m < 2 ^ 32)
                [2147483647; 2147483648; 4294967295; 3]).
  { repeat constructor; vm_compute; discriminate. }
  split; [exact H|]. split; [vm_compute; reflexivity|].
  exact (proj1 (arduino_overflow_never_counted 20
                  [2147483647; 2147483648; 4294967295; 3] H)).
Defined.

Lemma posix_reading_exact_witness :
  0 <= 9223372035 <= 9223372035 /\ 0 <= 999999999 <= 999999999
  /\ Clock.source_time 20 clock_init
       (POSIX_timespec 9223372035 999999999)
     = 9223372035999999999.
Proof.
  assert (H1 : 0 <= 9223372035 <= 9223372035) by lia.
  assert (H2 : 0 <= 999999999 <= 999999999) by lia.
  split; [exact H1|]. split; [exact H2|].
  rewrite (posix_reading_exact 20 clock_init _ _ H1 H2). reflexivity.
Defined.

Lemma freertos_reading_ordered_witness :
  Clock.source_time 20 clock_init (FreeRTOS_ticks 7 1048575)
  < Clock.source_time 20 clock_init (FreeRTOS_ticks 8 0).
Proof.
  refine (proj2 (proj2 (freertos_reading_ordered 20 clock_init clock_init
                          7 1048575 8 0 _ _ _ _ _)));
    vm_compute; split; discriminate || reflexivity.
Defined.

End ClockMore.

(** ** The allocator *)

Module HeapMore.

Import Heap Runs HeapFacts.

Section WithLinkerSymbols.

Variable ptr_bits : Z.
Variables __cs3_heap_start __cs3_heap_end __heap2_start __heap2_end : Z.

Local Abbreviation ptr_add := (Heap.ptr_add ptr_bits).
Local Abbreviation no_wrap := (Heap.no_wrap ptr_bits).
Local Abbreviation primary_bump := (Heap.primary_bump __cs3_heap_start).
Local Abbreviation secondary_bump := (Heap.secondary_bump __heap2_start).
Local Abbreviation _sbrk_r :=
  (Heap._sbrk_r ptr_bits __cs3_heap_start __cs3_heap_end
     __heap2_start __heap2_end).
Local Abbreviation fits_primary :=
  (Heap.fits_primary __cs3_heap_start __cs3_heap_end).
Local Abbreviation fits_secondary :=
  (Heap.fits_secondary __heap2_start __heap2_end).
Local Abbreviation secondary_present :=
  (Heap.secondary_present __heap2_start __heap2_end).
Local Abbreviation sbrk_blocks :=
  (Runs.sbrk_blocks ptr_bits __cs3_heap_start __cs3_heap_end
     __heap2_start __heap2_end).
Local Abbreviation region_of :=
  (Heap.region_of ptr_bits __cs3_heap_start __cs3_heap_end).
Local Abbreviation inside :=
  (Runs.inside __cs3_heap_start __cs3_heap_end __heap2_start __heap2_end).
Local Abbreviation cannot_wrap :=
  (Runs.cannot_wrap ptr_bits __cs3_heap_end __heap2_start __heap2_end).

Local Abbreviation sbrk_primary :=
  (HeapFacts._sbrk_r_primary ptr_bits __cs3_heap_start __cs3_heap_end
     __heap2_start __heap2_end).
Local Abbreviation sbrk_secondary :=
  (HeapFacts._sbrk_r_secondary ptr_bits __cs3_heap_start __cs3_heap_end
     __heap2_start __heap2_end).
Local Abbreviation sbrk_exhausted :=
  (HeapFacts._sbrk_r_exhausted ptr_bits __cs3_heap_start __cs3_heap_end
     __heap2_start __heap2_end).

Lemma bump_of_positive start v :
  0 < v -> (if v =? 0 then start else v) = v.
Proof. intros H. destruct (Z.eqb_spec v 0); [lia|reflexivity]. Qed.

Lemma region_of_primary st s :
  no_wrap (primary_bump st) s -> fits_primary st s ->
  region_of st s = Primary.
Proof.
  unfold Heap.fits_primary, Heap.region_of. intros W H.
  rewrite (ptr_add_no_wrap _ _ _ W).
  destruct (Z.gtb_spec (primary_bump st + s) __cs3_heap_end); [lia|].
  reflexivity.
Qed.

Lemma region_of_secondary st s :
  no_wrap (primary_bump st) s -> ~ fits_primary st s ->
  region_of st s = Secondary.
Proof.
  unfold Heap.fits_primary, Heap.region_of. intros W H.
  rewrite (ptr_add_no_wrap _ _ _ W).
  destruct (Z.gtb_spec (primary_bump st + s) __cs3_heap_end); [|lia].
  reflexivity.
Qed.

(** One step of a run, by the branch the request takes. *)
Lemma sbrk_blocks_cons st s reqs :
  sbrk_blocks st (s :: reqs)
  = match _sbrk_r st s with
    | (Ret p, st') =>
        (MkBlock p s (region_of st s) :: fst (sbrk_blocks st' reqs),
         snd (sbrk_blocks st' reqs))
    | (Die _ _, st') => ([], st')
    end.
Proof.
  cbn [Runs.sbrk_blocks]. destruct (_sbrk_r st s) as [[p|c v] st'].
  - destruct (sbrk_blocks st' reqs). reflexivity.
  - reflexivity.
Qed.

(** What a run keeps true, from pointers that lie within their regions,
    for requests that cannot wrap: every block is inside its region and
    not below the pointer the run started from; blocks are pairwise apart
    when the two regions are; the bytes handed out of a region are the
    distance its pointer has moved; and the pointers stay within their
    regions. *)
Lemma sbrk_blocks_run st reqs :
  0 < __cs3_heap_start -> 0 < __heap2_start ->
  __cs3_heap_start <= primary_bump st <= __cs3_heap_end ->
  __heap2_start <= secondary_bump st <= __heap2_end ->
  Forall cannot_wrap reqs ->
  let bs := fst (sbrk_blocks st reqs) in
  let st' := snd (sbrk_blocks st reqs) in
  Forall inside bs
  /\ Forall (fun b => match b_region b with
                      | Primary => primary_bump st <= b_addr b
                      | Secondary => secondary_bump st <= b_addr b
                      end) bs
  /\ (__cs3_heap_end <= __heap2_start \/ __heap2_end <= __cs3_heap_start ->
      ForallOrdPairs apart bs)
  /\ bytes_from Primary bs = Heap.primary_bump __cs3_heap_start st'
                             - primary_bump st
  /\ bytes_from Secondary bs = Heap.secondary_bump __heap2_start st'
                               - secondary_bump st
  /\ Heap.primary_bump __cs3_heap_start st' <= __cs3_heap_end
  /\ Heap.secondary_bump __heap2_start st' <= __heap2_end.
Proof.
  intros H1 H2. cbv zeta. revert st.
  induction reqs as [|s reqs IH]; intros st Hp Hs Hreqs.
  - cbn. repeat split; try constructor; try lia; auto.
  - apply Forall_cons_1 in Hreqs as [(Hs0 & Hw1 & Hw2) Hreqs].
    rewrite sbrk_blocks_cons.
    assert (W1 : no_wrap (primary_bump st) s)
      by (unfold Heap.no_wrap; lia).
    assert (W2 : secondary_present -> no_wrap (secondary_bump st) s).
    { intros P. specialize (Hw2 P). unfold Heap.no_wrap; lia. }
    destruct (fits_primary_dec __cs3_heap_start __cs3_heap_end st s)
      as [F|F].
    + (* served from the primary region *)
      rewrite (sbrk_primary _ _ W1 F), (region_of_primary _ _ W1 F).
      set (st1 := MkHeap (primary_bump st + s) (secondary_bump st)).
      unfold Heap.fits_primary in F.
      assert (E1 : Heap.primary_bump __cs3_heap_start st1
                   = primary_bump st + s).
      { unfold Heap.primary_bump at 1. subst st1; cbn [heap_end].
        apply bump_of_positive. lia. }
      assert (E2 : Heap.secondary_bump __heap2_start st1
                   = secondary_bump st).
      { unfold Heap.secondary_bump at 1. subst st1; cbn [heap2_end].
        apply bump_of_positive. lia. }
      destruct (IH st1) as (I1 & I2 & I3 & I4 & I5 & I6 & I7);
        [lia | lia | exact Hreqs |].
      rewrite E1 in *. rewrite E2 in *. cbn [fst snd].
      split; [|split; [|split; [|split; [|split; [|split]]]]].
      * constructor; [|exact I1]. unfold Runs.inside; cbn. lia.
      * constructor; [cbn; lia|].
        eapply Forall_impl; [exact I2|]. intros b. cbn beta.
        destruct (b_region b); lia.
      * intros Hsep. constructor; [|apply I3, Hsep].
        rewrite Forall_forall in I1, I2. apply Forall_forall. intros b Hb.
        specialize (I1 b Hb). specialize (I2 b Hb).
        unfold apart, Runs.inside in *. cbn [b_addr b_size] in *.
        destruct (b_region b); lia.
      * unfold bytes_from in *. cbn [List.filter b_region map fold_right b_size].
        lia.
      * unfold bytes_from in *. cbn [List.filter b_region]. lia.
      * exact I6.
      * exact I7.
    + destruct (secondary_dec __heap2_start __heap2_end st s)
        as [[P S]|N].
      * (* served from the secondary region *)
        rewrite (sbrk_secondary _ _ W1 (W2 P) F P S),
          (region_of_secondary _ _ W1 F).
        set (st1 := MkHeap (primary_bump st) (secondary_bump st + s)).
        unfold Heap.fits_secondary in S.
        assert (E1 : Heap.primary_bump __cs3_heap_start st1
                     = primary_bump st).
        { unfold Heap.primary_bump at 1. subst st1; cbn [heap_end].
          apply bump_of_positive. lia. }
        assert (E2 : Heap.secondary_bump __heap2_start st1
                     = secondary_bump st + s).
        { unfold Heap.secondary_bump at 1. subst st1; cbn [heap2_end].
          apply bump_of_positive. lia. }
        destruct (IH st1) as (I1 & I2 & I3 & I4 & I5 & I6 & I7);
          [lia | lia | exact Hreqs |].
        rewrite E1 in *. rewrite E2 in *. cbn [fst snd].
        split; [|split; [|split; [|split; [|split; [|split]]]]].
        -- constructor; [|exact I1]. unfold Runs.inside; cbn. lia.
        -- constructor; [cbn; lia|].
           eapply Forall_impl; [exact I2|]. intros b. cbn beta.
           destruct (b_region b); lia.
        -- intros Hsep. constructor; [|apply I3, Hsep].
           rewrite Forall_forall in I1, I2. apply Forall_forall. intros b Hb.
           specialize (I1 b Hb). specialize (I2 b Hb).
           unfold apart, Runs.inside in *. cbn [b_addr b_size] in *.
           destruct (b_region b); lia.
        -- unfold bytes_from in *. cbn [List.filter b_region]. lia.
        -- unfold bytes_from in *.
           cbn [List.filter b_region map fold_right b_size]. lia.
        -- exact I6.
        -- exact I7.
      * (* neither region can serve it *)
        rewrite (sbrk_exhausted _ _ W1 W2 F N). cbn [fst snd].
        set (st1 := MkHeap (primary_bump st) (secondary_bump st)).
        assert (E1 : Heap.primary_bump __cs3_heap_start st1
                     = primary_bump st).
        { unfold Heap.primary_bump at 1. subst st1; cbn [heap_end].
          apply bump_of_positive. lia. }
        assert (E2 : Heap.secondary_bump __heap2_start st1
                     = secondary_bump st).
        { unfold Heap.secondary_bump at 1. subst st1; cbn [heap2_end].
          apply bump_of_positive. lia. }
        rewrite E1, E2. unfold bytes_from. cbn.
        repeat split; try constructor; try lia; auto.
Qed.

(** X6.  Requests of non-negative size that are too small to wrap the
    pointer arithmetic, on pointers that are unset or within their
    regions, with the two regions apart from each other: every block
    handed out lies inside the region it was taken from, and no two
    blocks of the run share a byte. *)
Theorem sbrk_blocks_disjoint st reqs :
  0 < __cs3_heap_start -> 0 < __heap2_start ->
  __cs3_heap_start <= primary_bump st <= __cs3_heap_end ->
  __heap2_start <= secondary_bump st <= __heap2_end ->
  __cs3_heap_end <= __heap2_start \/ __heap2_end <= __cs3_heap_start ->
  Forall cannot_wrap reqs ->
  Forall inside (fst (sbrk_blocks st reqs))
  /\ ForallOrdPairs apart (fst (sbrk_blocks st reqs)).
Proof.
  intros H1 H2 Hp Hs Hsep Hreqs.
  destruct (sbrk_blocks_run st reqs H1 H2 Hp Hs Hreqs)
    as (I1 & _ & I3 & _).
  split; [exact I1 | apply I3, Hsep].
Qed.

(** X7.  From the pointers of program start, requests of non-negative
    size that are too small to wrap the pointer arithmetic never get more
    bytes out of a region than lie between its start and end symbols. *)
Theorem sbrk_blocks_capacity reqs :
  0 < __cs3_heap_start <= __cs3_heap_end ->
  0 < __heap2_start <= __heap2_end ->
  Forall cannot_wrap reqs ->
  bytes_from Primary (fst (sbrk_blocks heap_init reqs))
  <= __cs3_heap_end - __cs3_heap_start
  /\ bytes_from Secondary (fst (sbrk_blocks heap_init reqs))
     <= __heap2_end - __heap2_start.
Proof.
  intros H1 H2 Hreqs.
  destruct (sbrk_blocks_run heap_init reqs) as (_ & _ & _ & B1 & B2 & C1 & C2);
    try assumption; try (cbn; lia).
  change (primary_bump heap_init) with __cs3_heap_start in *.
  change (secondary_bump heap_init) with __heap2_start in *.
  lia.
Qed.

(** X8.  A request that is zero or negative, made while the primary
    pointer is not beyond the end of its region.  If it hands back no
    more than the value of the primary pointer, it is answered from that
    pointer, which moves down with no check against the start of the
    region.  If it hands back more, the sum wraps to an address above the
    region: the primary pointer is left as read and the request goes to
    the secondary region or to the fatal stop. *)
Theorem _sbrk_r_nonpositive st incr :
  incr <= 0 -> 0 <= primary_bump st <= __cs3_heap_end ->
  __cs3_heap_end < 2 ^ ptr_bits ->
  (0 <= primary_bump st + incr ->
   _sbrk_r st incr
   = (Ret (primary_bump st),
      MkHeap (primary_bump st + incr) (secondary_bump st)))
  /\ (__cs3_heap_end - 2 ^ ptr_bits < primary_bump st + incr < 0 ->
      heap_end (snd (_sbrk_r st incr)) = primary_bump st
      /\ (_sbrk_r st incr
          = (Ret (secondary_bump st),
             MkHeap (primary_bump st) (ptr_add (secondary_bump st) incr))
          \/ _sbrk_r st incr
             = (Die BLINK_DIE_OUTOFMEM 0,
                MkHeap (primary_bump st) (secondary_bump st)))).
Proof.
  intros Hi Hp He. split.
  - intros H0. apply sbrk_primary.
    + unfold Heap.no_wrap. lia.
    + unfold Heap.fits_primary. lia.
  - intros Hw.
    assert (G : __cs3_heap_end < ptr_add (primary_bump st) incr)
      by (rewrite ptr_add_below; lia).
    destruct (Z.eq_dec __heap2_start __heap2_end) as [P|P].
    { rewrite _sbrk_r_dies by (try intros [? _]; auto).
      split; [reflexivity | right; reflexivity]. }
    destruct (Z_le_dec (ptr_add (secondary_bump st) incr) __heap2_end)
      as [S|S].
    + rewrite (_sbrk_r_from_secondary _ _ _ _ _ _ _ G P S).
      split; [reflexivity | left; reflexivity].
    + rewrite _sbrk_r_dies by (try intros [_ ?]; auto).
      split; [reflexivity | right; reflexivity].
Qed.

(** X9.  Among requests that do not wrap the pointer arithmetic, whether
    a request is served is monotone in its size: from the same pointers,
    if a request gets a pointer then so does every smaller one. *)
Theorem _sbrk_r_smaller_served st s s' :
  s <= s' ->
  no_wrap (primary_bump st) s -> no_wrap (primary_bump st) s' ->
  (secondary_present ->
   no_wrap (secondary_bump st) s /\ no_wrap (secondary_bump st) s') ->
  pointer_of (fst (_sbrk_r st s')) <> None ->
  pointer_of (fst (_sbrk_r st s)) <> None.
Proof.
  intros Hle W1 W1' W2 Hs'.
  destruct (fits_primary_dec __cs3_heap_start __cs3_heap_end st s) as [F|F].
  { rewrite (sbrk_primary _ _ W1 F). discriminate. }
  destruct (secondary_dec __heap2_start __heap2_end st s) as [[P S]|N].
  { rewrite (sbrk_secondary _ _ W1 (proj1 (W2 P)) F P S). discriminate. }
  exfalso. apply Hs'.
  assert (F' : ~ fits_primary st s')
    by (unfold Heap.fits_primary in *; lia).
  assert (N' : ~ (secondary_present /\ fits_secondary st s')).
  { intros [P S]. apply N. split; [exact P|].
    unfold Heap.fits_secondary in *. lia. }
  rewrite (sbrk_exhausted _ _ W1' (fun P => proj2 (W2 P)) F' N').
  reflexivity.
Qed.

(** X10.  Growing by [s] and then shrinking by [s], on pointers that are
    positive addresses and for an [s] that does not wrap the growing
    call.  If the primary region served the block, the second call
    returns the end of the block and puts the primary pointer back.  If
    the secondary region served it and [s] is at most the value of the
    primary pointer, the second call is answered from the primary
    pointer, which goes down by [s], and the secondary pointer keeps the
    block.  If [s] is more than the value of the primary pointer, the
    difference wraps to an address above the primary region, and the
    second call puts the secondary pointer back. *)
Theorem _sbrk_r_grow_then_shrink st s :
  0 <= s -> 0 < primary_bump st <= __cs3_heap_end ->
  0 < secondary_bump st ->
  __cs3_heap_end < 2 ^ ptr_bits ->
  no_wrap (primary_bump st) s ->
  (secondary_present -> no_wrap (secondary_bump st) s) ->
  let st1 := snd (_sbrk_r st s) in
  (fits_primary st s ->
   _sbrk_r st1 (- s)
   = (Ret (primary_bump st + s),
      MkHeap (primary_bump st) (secondary_bump st)))
  /\ (~ fits_primary st s -> secondary_present -> fits_secondary st s ->
      s <= primary_bump st ->
      _sbrk_r st1 (- s)
      = (Ret (primary_bump st),
         MkHeap (primary_bump st - s) (secondary_bump st + s)))
  /\ (~ fits_primary st s -> secondary_present -> fits_secondary st s ->
      primary_bump st < s ->
      __cs3_heap_end - 2 ^ ptr_bits < primary_bump st - s ->
      _sbrk_r st1 (- s)
      = (Ret (secondary_bump st + s),
         MkHeap (primary_bump st) (secondary_bump st))).
Proof.
  intros Hs Hp Hq He W1 W2. cbv zeta. split; [|split].
  - intros F. rewrite (sbrk_primary _ _ W1 F). cbn [snd].
    assert (E1 : Heap.primary_bump __cs3_heap_start
                   (MkHeap (primary_bump st + s) (secondary_bump st))
                 = primary_bump st + s).
    { unfold Heap.primary_bump at 1; cbn [heap_end].
      apply bump_of_positive. lia. }
    unfold Heap.fits_primary in F.
    rewrite sbrk_primary;
      [| unfold Heap.no_wrap; rewrite E1; lia
       | unfold Heap.fits_primary; rewrite E1; lia].
    rewrite E1, secondary_bump_kept.
    f_equal. f_equal. lia.
  - intros F P S Hle.
    rewrite (sbrk_secondary _ _ W1 (W2 P) F P S). cbn [snd].
    assert (E1 : Heap.primary_bump __cs3_heap_start
                   (MkHeap (primary_bump st) (secondary_bump st + s))
                 = primary_bump st)
      by apply primary_bump_kept.
    assert (E2 : Heap.secondary_bump __heap2_start
                   (MkHeap (primary_bump st) (secondary_bump st + s))
                 = secondary_bump st + s).
    { unfold Heap.secondary_bump at 1; cbn [heap2_end].
      apply bump_of_positive. lia. }
    rewrite sbrk_primary;
      [| unfold Heap.no_wrap; rewrite E1; lia
       | unfold Heap.fits_primary; rewrite E1; lia].
    rewrite E1, E2. reflexivity.
  - intros F P S Hlt Hw.
    rewrite (sbrk_secondary _ _ W1 (W2 P) F P S). cbn [snd].
    assert (E1 : Heap.primary_bump __cs3_heap_start
                   (MkHeap (primary_bump st) (secondary_bump st + s))
                 = primary_bump st)
      by apply primary_bump_kept.
    assert (E2 : Heap.secondary_bump __heap2_start
                   (MkHeap (primary_bump st) (secondary_bump st + s))
                 = secondary_bump st + s).
    { unfold Heap.secondary_bump at 1; cbn [heap2_end].
      apply bump_of_positive. lia. }
    pose proof (W2 P) as W. unfold Heap.no_wrap in W.
    unfold Heap.fits_secondary in S.
    assert (A : ptr_add (secondary_bump st + s) (- s) = secondary_bump st).
    { rewrite ptr_add_no_wrap by (unfold Heap.no_wrap; lia). lia. }
    rewrite _sbrk_r_from_secondary; rewrite ?E1, ?E2, ?A.
    + reflexivity.
    + rewrite ptr_add_below; lia.
    + exact P.
    + lia.
Qed.

End WithLinkerSymbols.

(** A block of the primary region is handed back. *)
Lemma _sbrk_r_grow_then_shrink_witness :
  let st1 :=
    snd (Heap._sbrk_r 32 1000 2000 5000 6000 (MkHeap 1400 5600) 100) in
  Heap._sbrk_r 32 1000 2000 5000 6000 st1 (-100)
  = (Ret 1500, MkHeap 1400 5600).
Proof.
  cbv zeta.
  refine (proj1 (_sbrk_r_grow_then_shrink 32 1000 2000 5000 6000
                   (MkHeap 1400 5600) 100 _ _ _ _ _ _) _).
  - vm_compute; discriminate.
  - split; [reflexivity | vm_compute; discriminate].
  - reflexivity.
  - reflexivity.
  - vm_compute. split; [discriminate | reflexivity].
  - intros _. vm_compute. split; [discriminate | reflexivity].
  - vm_compute; discriminate.
Defined.

(** A block of 1500 bytes of a larger secondary region is handed back at
    a primary pointer of 1400: the difference wraps, and the secondary
    pointer returns to where it was. *)
Example _sbrk_r_shrink_wraps :
  let st1 :=
    snd (Heap._sbrk_r 32 1000 2000 5000 9000 (MkHeap 1400 5600) 1500) in
  st1 = MkHeap 1400 7100
  /\ Heap._sbrk_r 32 1000 2000 5000 9000 st1 (-1500)
     = (Ret 7100, MkHeap 1400 5600).
Proof. cbv zeta. split; reflexivity. Qed.

Lemma sbrk_blocks_disjoint_witness :
  let reqs := [600; 600; 300; 100; 500] in
  fst (sbrk_blocks 32 1000 2000 5000 6000 heap_init reqs)
  = [MkBlock 1000 600 Primary; MkBlock 5000 600 Secondary;
     MkBlock 1600 300 Primary; MkBlock 1900 100 Primary]
  /\ ForallOrdPairs apart
       (fst (sbrk_blocks 32 1000 2000 5000 6000 heap_init reqs)).
Proof.
  cbv zeta. split; [reflexivity|].
  refine (proj2 (sbrk_blocks_disjoint 32 1000 2000 5000 6000 heap_init
                   [600; 600; 300; 100; 500] _ _ _ _ _ _)).
  - reflexivity.
  - reflexivity.
  - split; vm_compute; discriminate.
  - split; vm_compute; discriminate.
  - left. vm_compute; discriminate.
  - repeat constructor; try (vm_compute; discriminate);
      intros _; reflexivity.
Defined.

Lemma sbrk_blocks_capacity_witness :
  bytes_from Primary
    (fst (sbrk_blocks 32 1000 2000 5000 6000 heap_init
            [600; 600; 300; 100; 500]))
  <= 2000 - 1000.
Proof.
  refine (proj1 (sbrk_blocks_capacity 32 1000 2000 5000 6000
                   [600; 600; 300; 100; 500] _ _ _)).
  - split; [reflexivity | vm_compute; discriminate].
  - split; [reflexivity | vm_compute; discriminate].
  - repeat constructor; try (vm_compute; discriminate);
      intros _; reflexivity.
Defined.

(** 600 bytes are handed back at a primary pointer of 1400: the pointer
    goes down, below the start of its region.  Handing back 2000 bytes
    wraps, and the request is answered from the secondary region. *)
Lemma _sbrk_r_nonpositive_witness :
  Heap._sbrk_r 32 1000 2000 5000 6000 (MkHeap 1400 5600) (-600)
  = (Ret 1400, MkHeap 800 5600)
  /\ heap_end
       (snd (Heap._sbrk_r 32 1000 2000 5000 6000 (MkHeap 1400 5600) (-2000)))
     = 1400
  /\ Heap._sbrk_r 32 1000 2000 5000 6000 (MkHeap 1400 5600) (-2000)
     = (Ret 5600, MkHeap 1400 3600).
Proof.
  assert (H1 : -600 <= 0) by lia.
  assert (H1' : -2000 <= 0) by lia.
  assert (H2 : 0 <= Heap.primary_bump 1000 (MkHeap 1400 5600) <= 2000)
    by (split; vm_compute; discriminate).
  assert (H3 : 2000 < 2 ^ 32) by reflexivity.
  split; [|split].
  - apply (proj1 (_sbrk_r_nonpositive 32 1000 2000 5000 6000
                    (MkHeap 1400 5600) (-600) H1 H2 H3)).
    vm_compute; discriminate.
  - apply (proj2 (_sbrk_r_nonpositive 32 1000 2000 5000 6000
                    (MkHeap 1400 5600) (-2000) H1' H2 H3)).
    split; reflexivity.
  - reflexivity.
Defined.

Lemma _sbrk_r_smaller_served_witness :
  pointer_of
    (fst (Heap._sbrk_r 32 1000 2000 5000 6000 (MkHeap 1900 5200) 50))
  <> None.
Proof.
  apply (_sbrk_r_smaller_served 32 1000 2000 5000 6000 (MkHeap 1900 5200)
           50 800).
  - lia.
  - vm_compute. split; [discriminate | reflexivity].
  - vm_compute. split; [discriminate | reflexivity].
  - intros _. vm_compute. repeat split; discriminate.
  - vm_compute. discriminate.
Defined.

End HeapMore.

(** ** One-time initialisation under the scheduler *)

Module OnceMore.

Import Once OnceLines OnceFacts.

Section Scheduled.

Context {W : Type}.
Variable routine : W -> W.
Variable w0 : W.

Local Abbreviation thread_step := (Once.thread_step routine).
Local Abbreviation step := (Once.step routine).
Local Abbreviation reachable := (Once.reachable routine).
Local Abbreviation inv := (Once.inv routine w0).

(** X11.  No caller comes back from [os_thread_once] before the
    initialisation is complete: in every reachable state, a caller that
    has returned has returned 0, the guard is done and the routine has
    been applied to the data. *)
Theorem no_return_before_done k s i v :
  reachable (start k w0) s ->
  threads s !! i = Some (Returned v) ->
  v = 0 /\ once s = OS_THREAD_ONCE_DONE /\ shared s = routine w0.
Proof.
  intros Hreach Hi.
  destruct (inv_reachable routine w0 k s Hreach) as (ini & Hall & _ & _ & G3).
  destruct (Hall i _ Hi) as [Hdone ->].
  split; [reflexivity|]. split; [exact Hdone | apply G3, Hdone].
Qed.

(** X12.  Mutual exclusion: in every reachable state at most one caller
    is at a line where it holds [onceMutex], and at most one caller is
    between setting the guard in progress and setting it done; so the
    routine is never entered by two callers. *)
Theorem one_holder_one_initialiser k s i j p q :
  reachable (start k w0) s ->
  threads s !! i = Some (Running p) ->
  threads s !! j = Some (Running q) ->
  (holding p = true -> holding q = true -> i = j)
  /\ (initialising p = true -> initialising q = true -> i = j).
Proof.
  intros Hreach Hi Hj.
  destruct (inv_reachable routine w0 k s Hreach) as (ini & Hall & _).
  pose proof (Hall i _ Hi) as Pi. pose proof (Hall j _ Hj) as Pj.
  split; intros Hp Hq;
    destruct p; try discriminate Hp; destruct q; try discriminate Hq;
    cbn in Pi, Pj; intuition congruence.
Qed.

Lemma done_step s s' :
  inv s -> once s = OS_THREAD_ONCE_DONE -> step s s' ->
  once s' = OS_THREAD_ONCE_DONE /\ shared s' = shared s.
Proof.
  intros (ini & Hall & G1 & G2 & G3) Hdone [i Hstep].
  unfold Once.thread_step in Hstep.
  destruct (threads s !! i) as [[p|v]|] eqn:Hi; try discriminate.
  pose proof (Hall i _ Hi) as Hme.
  destruct s as [ths o m d]. cbn in *. subst o.
  destruct p; cbn in Hstep, Hme;
    repeat match type of Hstep with
           | context [decide ?P] => destruct (decide P)
           | context [Once.os_mutex_lock _ _] =>
               unfold Once.os_mutex_lock in Hstep; cbn in Hstep;
               destruct m; cbn in Hstep
           end;
    try discriminate Hstep; try (injection Hstep as <-; cbn; auto; fail).
  - (* line 190 needs the guard at never *)
    destruct Hme as [_ Hme]. discriminate Hme.
  - (* line 192 needs the guard in progress *)
    destruct Hme as [Hini _].
    assert (H : OS_THREAD_ONCE_DONE = OS_THREAD_ONCE_INPROGRESS)
      by (apply G2; congruence).
    discriminate H.
Qed.

(** X13.  Done is final: from a reachable state in which the guard is
    done, no sequence of steps changes the guard again or applies the
    routine again. *)
Theorem done_is_final k s s' :
  reachable (start k w0) s -> once s = OS_THREAD_ONCE_DONE ->
  reachable s s' ->
  once s' = OS_THREAD_ONCE_DONE /\ shared s' = shared s.
Proof.
  intros Hreach Hdone. unfold Once.reachable. revert s'.
  apply (rtc_ind_r
           (fun s' => reachable (start k w0) s'
                      /\ once s' = OS_THREAD_ONCE_DONE
                      /\ shared s' = shared s) s).
  - auto.
  - intros s1 s2 _ Hstep (Hr1 & Hd1 & Hs1).
    destruct (done_step s1 s2) as [Hd2 Hs2];
      [eapply inv_reachable; exact Hr1 | exact Hd1 | exact Hstep |].
    split; [|split; [exact Hd2 | congruence]].
    unfold Once.reachable in *. eapply rtc_r; eassumption.
Qed.

End Scheduled.

(** Caller 1 has run the routine and released the mutex but not yet
    returned; caller 0 has returned; caller 2 has not started. *)
Lemma no_return_before_done_witness :
  let s := exec increment
             [1; 1; 1; 1; 1; 1; 1; 1; 1; 1; 0; 0; 0; 0; 0; 0]%nat
             (start 3 0%nat) in
  threads s !! 0%nat = Some (Returned 0)
  /\ threads s !! 2%nat = Some (Running L184_scheduler_state)
  /\ once s = OS_THREAD_ONCE_DONE /\ shared s = 1%nat.
Proof.
  cbv zeta. split; [reflexivity|]. split; [reflexivity|].
  exact (proj2 (no_return_before_done increment 0%nat 3 _ 0%nat 0
                  (exec_reachable increment
                     [1; 1; 1; 1; 1; 1; 1; 1; 1; 1; 0; 0; 0; 0; 0; 0]%nat
                     (start 3 0%nat))
                  eq_refl)).
Defined.

(** Caller 1 is inside the routine while caller 0 holds the mutex in the
    polling loop: the holder and the initialiser are different callers,
    and neither is both. *)
Lemma one_holder_one_initialiser_witness :
  let s := exec increment [1; 1; 1; 1; 1; 0; 0; 0; 0]%nat (start 2 0%nat) in
  threads s = [Running L200_unlock; Running L192_routine]
  /\ (holding L200_unlock = true -> holding L192_routine = true ->
      0%nat = 1%nat)
  /\ (initialising L200_unlock = true -> initialising L192_routine = true ->
      0%nat = 1%nat).
Proof.
  cbv zeta. split; [reflexivity|].
  exact (one_holder_one_initialiser increment 0%nat 2 _
           0%nat 1%nat L200_unlock L192_routine
           (exec_reachable increment
              [1; 1; 1; 1; 1; 0; 0; 0; 0]%nat (start 2 0%nat))
           eq_refl eq_refl).
Defined.

(** After caller 0 has completed the initialisation, caller 1 goes
    through the function: the counter stays at 1. *)
Lemma done_is_final_witness :
  let s := exec increment (replicate 10 0%nat) (start 2 0%nat) in
  let s' := exec increment (replicate 6 1%nat) s in
  once s = OS_THREAD_ONCE_DONE
  /\ threads s' !! 1%nat = Some (Returned 0)
  /\ once s' = OS_THREAD_ONCE_DONE /\ shared s' = shared s.
Proof.
  cbv zeta. split; [reflexivity|]. split; [reflexivity|].
  apply (done_is_final increment 0%nat 2).
  - apply exec_reachable.
  - reflexivity.
  - apply exec_reachable.
Defined.

End OnceMore.

(** ** Threads and the task list *)

Module ThreadsMore.

Import Threads ThreadsFacts.

Section WithConfig.

Variables configMAX_PRIORITIES sizeof_portSTACK_TYPE size_bits : Z.
Variable UBaseType_bits : Z.
Variable configMAX_PRIORITIES_unsigned : option Z.
Variable pcTaskGetTaskName : list Z -> list Z.
Variable uxTaskGetStackHighWaterMark : Z -> Z.

Local Abbreviation os_thread_create :=
  (Threads.os_thread_create configMAX_PRIORITIES sizeof_portSTACK_TYPE
     UBaseType_bits configMAX_PRIORITIES_unsigned pcTaskGetTaskName).
Local Abbreviation spawn_all :=
  (Threads.spawn_all configMAX_PRIORITIES sizeof_portSTACK_TYPE
     UBaseType_bits configMAX_PRIORITIES_unsigned pcTaskGetTaskName).
Local Abbreviation to_size_t := (Threads.to_size_t size_bits).
Local Abbreviation os_thread_start := (Threads.os_thread_start size_bits).
Local Abbreviation refresh :=
  (Threads.refresh sizeof_portSTACK_TYPE size_bits
     uxTaskGetStackHighWaterMark).
Local Abbreviation vApplicationIdleHook :=
  (Threads.vApplicationIdleHook sizeof_portSTACK_TYPE size_bits
     uxTaskGetStackHighWaterMark).
Local Abbreviation exits_after_linking :=
  (Lifecycle.exits_after_linking configMAX_PRIORITIES sizeof_portSTACK_TYPE
     size_bits UBaseType_bits configMAX_PRIORITIES_unsigned
     pcTaskGetTaskName).
Local Abbreviation exits_before_linking :=
  (Lifecycle.exits_before_linking configMAX_PRIORITIES
     sizeof_portSTACK_TYPE size_bits UBaseType_bits
     configMAX_PRIORITIES_unsigned pcTaskGetTaskName).
Local Abbreviation idle_runs :=
  (Lifecycle.idle_runs sizeof_portSTACK_TYPE size_bits
     uxTaskGetStackHighWaterMark).

Lemma os_thread_start_skip h pre rest :
  Forall (fun x => task x <> h) pre ->
  os_thread_start h (pre ++ rest) = pre ++ os_thread_start h rest.
Proof.
  induction pre as [|x pre IH]; intros Hpre; [reflexivity|].
  apply Forall_cons_1 in Hpre as [Hx Hpre].
  cbn [app Threads.os_thread_start].
  destruct (Z.eqb_spec (task x) h); [contradiction|].
  rewrite (IH Hpre). reflexivity.
Qed.

(** X14.  When the entry function of the task with handle [h] returns,
    exactly one record changes: the first record of [h] in the list loses
    its handle and gets the magic value; records before and after it,
    later records of the same handle included, stay as they are.  If no
    record has that handle the list is unchanged. *)
Theorem os_thread_start_first_only h tl :
  (Forall (fun x => task x <> h) tl -> os_thread_start h tl = tl)
  /\ (forall pre e post,
        tl = pre ++ e :: post ->
        Forall (fun x => task x <> h) pre -> task e = h ->
        os_thread_start h tl
        = pre ++ MkTaskList (node e) 0 (name e)
                   (to_size_t DELETED_TASK_MAGIC) :: post).
Proof.
  split.
  - intros H. rewrite <- (app_nil_r tl) at 1.
    rewrite (os_thread_start_skip h tl [] H). apply app_nil_r.
  - intros pre e post -> Hpre He.
    rewrite (os_thread_start_skip h pre (e :: post) Hpre).
    cbn [Threads.os_thread_start]. rewrite He, Z.eqb_refl. reflexivity.
Qed.

Lemma os_thread_start_absent h tl :
  Forall (fun x => task x <> h) tl -> os_thread_start h tl = tl.
Proof.
  intros H. rewrite <- (app_nil_r tl) at 1.
  rewrite (os_thread_start_skip h tl [] H). apply app_nil_r.
Qed.

(** One run of the idle hook on a list whose first record is not
    marked. *)
Lemma vApplicationIdleHook_head e rest :
  unused e <> DELETED_TASK_MAGIC ->
  vApplicationIdleHook (e :: rest)
  = (refresh e :: fst (vApplicationIdleHook rest),
     snd (vApplicationIdleHook rest)).
Proof.
  intros H. rewrite !vApplicationIdleHook_unfold. cbn [List.filter fst snd].
  assert (M : marked e = false).
  { unfold marked.
    destruct (Z.eqb_spec (unused e) DELETED_TASK_MAGIC);
      [contradiction|reflexivity]. }
  rewrite M. reflexivity.
Qed.

(** A run of the idle hook brings no new record address into the list and
    frees only addresses of records of the list. *)
Lemma vApplicationIdleHook_nodes a tl :
  Forall (fun x => node x <> a) tl ->
  Forall (fun x => node x <> a) (fst (vApplicationIdleHook tl))
  /\ ~ In a (snd (vApplicationIdleHook tl)).
Proof.
  intros H. rewrite vApplicationIdleHook_unfold. cbn [fst snd].
  induction H as [|x tl Hx _ [IH1 IH2]]; [split; [constructor|intros []]|].
  cbn [List.filter]. destruct (marked x); cbn [negb map].
  - split; [exact IH1|]. intros [E|E]; [contradiction|exact (IH2 E)].
  - split; [|exact IH2]. constructor; [|exact IH1].
    rewrite refresh_node. exact Hx.
Qed.

(** A record that carries a live handle and is not marked stays at the
    head of the list through every run of the idle hook, as long as the
    byte count the hook stores for it is not the magic value. *)
Lemma idle_runs_keeps a h n e rest :
  h <> 0 ->
  to_size_t (uxTaskGetStackHighWaterMark h * sizeof_portSTACK_TYPE)
  <> DELETED_TASK_MAGIC ->
  node e = a -> task e = h -> unused e <> DELETED_TASK_MAGIC ->
  Forall (fun x => node x <> a) rest ->
  let res :=
    Lifecycle.idle_runs sizeof_portSTACK_TYPE size_bits
      uxTaskGetStackHighWaterMark n (e :: rest) in
  (exists e' rest',
      fst res = e' :: rest'
      /\ node e' = a /\ task e' = h /\ unused e' <> DELETED_TASK_MAGIC)
  /\ ~ In a (snd res).
Proof.
  intros Hh Hmark. cbv zeta. revert e rest.
  induction n as [|n IH]; intros e rest Ha Ht Hu Hrest.
  - cbn. split; [|intros []]. exists e, rest. auto.
  - cbn [Lifecycle.idle_runs].
    rewrite (vApplicationIdleHook_head e rest Hu).
    destruct (vApplicationIdleHook_nodes a rest Hrest) as [N1 N2].
    destruct (IH (refresh e) (fst (vApplicationIdleHook rest)))
      as [K1 K2]; try assumption.
    + rewrite refresh_node. exact Ha.
    + rewrite refresh_task. exact Ht.
    + rewrite refresh_unused, Ht.
      destruct (Z.eqb_spec h 0); [contradiction|exact Hmark].
    + destruct (Lifecycle.idle_runs _ _ _ n _) as [tl2 freed2].
      cbn [fst snd] in *. split; [exact K1|].
      intros Hin. apply in_app_or in Hin as [Hin|Hin]; auto.
Qed.

(** X15.  A thread is created and its entry function returns.  If it
    returns after its creator has linked the record, the next run of the
    idle hook gives the list it would have given without the thread, and
    frees the thread's record first.  If the new task preempts its
    creator and returns before the record is linked, nothing is marked:
    the record, with the handle of the ended task in it, stays at the
    head of the list through any number of runs of the idle hook and is
    never freed.  The first case needs a [size_t] of at least 32 bits, so
    that the magic value is stored unchanged; the second a handle and a
    record address that no record of the list has yet, and a stack size
    and a high-water mark whose byte counts are not the magic value. *)
Theorem created_exited_reclaimed st g name priority stack_size handle
        task_new :
  32 <= size_bits ->
  vApplicationIdleHook
    (exits_after_linking st g name priority stack_size handle task_new)
  = (fst (vApplicationIdleHook (taskList st)),
     task_new :: snd (vApplicationIdleHook (taskList st)))
  /\ (handle <> 0 ->
      Forall (fun e => task e <> handle) (taskList st) ->
      Forall (fun e => node e <> task_new) (taskList st) ->
      adjust_stack_size stack_size <> DELETED_TASK_MAGIC ->
      to_size_t (uxTaskGetStackHighWaterMark handle * sizeof_portSTACK_TYPE)
      <> DELETED_TASK_MAGIC ->
      forall n,
        let res :=
          idle_runs n
            (exits_before_linking st g name priority stack_size handle
               task_new) in
        (exists e rest,
            fst res = e :: rest
            /\ node e = task_new /\ task e = handle
            /\ unused e <> DELETED_TASK_MAGIC)
        /\ ~ In task_new (snd res)).
Proof.
  intros Hw. split; [|intros Hh Hfresh Hnodes Hstack Hmark].
  - unfold Lifecycle.exits_after_linking. rewrite os_thread_create_params.
    cbn [snd taskList Threads.os_thread_start task].
    rewrite Z.eqb_refl.
    rewrite !vApplicationIdleHook_unfold. cbn [List.filter fst snd].
    unfold marked at 1 3. cbn [unused].
    rewrite (to_size_t_magic size_bits Hw), Z.eqb_refl. reflexivity.
  - intros n. unfold Lifecycle.exits_before_linking.
    rewrite os_thread_create_params. cbn [snd taskList count].
    rewrite (os_thread_start_absent _ _ Hfresh).
    apply idle_runs_keeps; auto.
Qed.

(** X16.  Creation only ever adds to the list, at its head: after a run
    of calls the list holds the records of the calls, newest first, with
    the handles the kernel gave, in front of the records that were there
    before; and every call returns 0. *)
Theorem spawn_all_registry st reqs :
  let tl' := taskList (snd (spawn_all st reqs)) in
  map node tl' = rev (map rq_task_new reqs) ++ map node (taskList st)
  /\ map task tl' = rev (map rq_handle reqs) ++ map task (taskList st)
  /\ exists added, tl' = added ++ taskList st
                   /\ length added = length reqs.
Proof.
  cbv zeta. revert st. induction reqs as [|rq reqs IH]; intros st.
  - cbn. repeat split. exists []. split; reflexivity.
  - rewrite spawn_all_cons. cbv zeta. cbn [snd].
    rewrite os_thread_create_params. cbn [snd].
    match goal with
    | |- context [spawn_all ?s reqs] =>
        destruct (IH s) as (H1 & H2 & added & H3 & H4)
    end.
    cbn [taskList map node task] in *.
    rewrite H1, H2, H3. cbn [map rev].
    rewrite <- !app_assoc. cbn [app].
    repeat split.
    eexists (added ++ [_]). rewrite <- app_assoc. cbn [app].
    split; [reflexivity|]. rewrite length_app. cbn. lia.
Qed.

Lemma refresh_twice e : refresh (refresh e) = refresh e.
Proof.
  unfold Threads.refresh. destruct (Z.eqb_spec (task e) 0) as [E|E].
  - rewrite E. reflexivity.
  - cbn [task]. destruct (Z.eqb_spec (task e) 0); [contradiction|].
    reflexivity.
Qed.

(** X17.  If the stack high-water mark of no task in the list, in bytes,
    happens to be the magic value, running the idle hook a second time
    right after the first frees nothing and leaves the list as the first
    run left it. *)
Theorem vApplicationIdleHook_twice tl :
  (forall e, In e tl -> task e <> 0 ->
             to_size_t (uxTaskGetStackHighWaterMark (task e)
                        * sizeof_portSTACK_TYPE) <> DELETED_TASK_MAGIC) ->
  vApplicationIdleHook (fst (vApplicationIdleHook tl))
  = (fst (vApplicationIdleHook tl), []).
Proof.
  intros Hmark. rewrite !vApplicationIdleHook_unfold. cbn [fst].
  set (kept := List.filter (fun e => negb (marked e)) tl).
  assert (Hkept : forall e, In e kept -> marked (refresh e) = false).
  { intros e He. apply filter_In in He as [Hin Hm].
    apply negb_true_iff in Hm. unfold marked in *.
    rewrite refresh_unused.
    destruct (Z.eqb_spec (task e) 0) as [E|E]; [exact Hm|].
    apply Z.eqb_neq, Hmark; assumption. }
  assert (Hall : forall e, In e (map refresh kept) -> marked e = false).
  { intros e He. apply in_map_iff in He as (x & <- & Hx). apply Hkept, Hx. }
  clearbody kept. f_equal.
  - transitivity (map refresh (map refresh kept)).
    + f_equal. induction (map refresh kept) as [|x l IH]; [reflexivity|].
      cbn [List.filter]. rewrite (Hall x (or_introl eq_refl)). cbn [negb].
      f_equal. apply IH. intros e He. apply Hall. right. exact He.
    + rewrite map_map. apply map_ext. intros e. apply refresh_twice.
  - replace (List.filter marked (map refresh kept)) with (@nil TaskList);
      [reflexivity|].
    induction (map refresh kept) as [|x l IH]; [reflexivity|].
    cbn [List.filter]. rewrite (Hall x (or_introl eq_refl)).
    apply IH. intros e He. apply Hall. right. exact He.
Qed.

End WithConfig.

Lemma to_uint8_range x : 0 <= to_uint8 x < 256.
Proof.
  unfold to_uint8, wrap_unsigned. change (2 ^ 8) with 256.
  apply Z.mod_pos_bound. reflexivity.
Qed.

(** X18.  Whatever the counter holds and whatever the ten bytes of
    [auto_name] held before, the buffer is filled completely and ends in
    [NUL], and the name it spells is ["thread."] followed by at most two
    further characters. *)
Theorem auto_name_shape g g' c :
  length g = 10%nat -> length g' = 10%nat ->
  auto_name g c = auto_name g' c
  /\ length (auto_name g c) = 10%nat
  /\ auto_name g c !! 9%nat = Some 0
  /\ exists suffix,
       c_str (auto_name g c) = chars "thread." ++ suffix
       /\ (length suffix <= 2)%nat
       /\ Forall (fun b => 0 < b < 256) suffix.
Proof.
  intros Hg Hg'. rewrite (auto_name_bytes g c Hg), (auto_name_bytes g' c Hg').
  split; [reflexivity|]. split; [reflexivity|]. split; [reflexivity|].
  pose proof (to_uint8_range (48 + c / 10)) as Hhi.
  pose proof (to_uint8_range (48 + c mod 10)) as Hlo.
  cbn [chars String.list_ascii_of_string map app c_str].
  cbn -[to_uint8].
  destruct (Z.eqb_spec (to_uint8 (48 + c / 10)) 0) as [E1|E1].
  - exists []. repeat split; [cbn; lia | constructor].
  - destruct (Z.eqb_spec (to_uint8 (48 + c mod 10)) 0) as [E2|E2].
    + exists [to_uint8 (48 + c / 10)].
      repeat split; [cbn; lia | repeat constructor; lia].
    + exists [to_uint8 (48 + c / 10); to_uint8 (48 + c mod 10)].
      repeat split; [cbn; lia | repeat constructor; lia].
Qed.

Section WithPthreads.

Variable h : host.
Variable answer : pthread_call -> Z.

Local Abbreviation os_thread_create_pthread :=
  (Threads.os_thread_create_pthread h answer).

(** X19.  On a host with POSIX threads the function stops at the first
    call that fails: a non-zero result is what the last call made
    answered, and every call before it answered 0; a result of 0 means
    [pthread_create] was made and answered 0; the thread is named only
    after it has been created; and a call without a name uses up a value
    of the name counter whether or not the thread gets created. *)
Theorem os_thread_create_pthread_result st g name priority stack_size :
  let r := os_thread_create_pthread st g name priority stack_size in
  let result := fst (fst r) in
  let made := snd (fst r) in
  (result <> 0 ->
   answer (List.last made pthread_attr_init) = result
   /\ Forall (fun c => answer c = 0) (removelast made))
  /\ (result = 0 ->
      In pthread_create made /\ answer pthread_create = 0)
  /\ Forall (fun c => match c with
                      | pthread_setname_np _ => result = 0
                      | _ => True
                      end) made
  /\ count (snd r) = snd (default_name g name (count st)).
Proof.
  cbv zeta. unfold Threads.os_thread_create_pthread, checked.
  destruct (default_name g name (count st)) as [nm c'].
  destruct h as [[] []]; cbn [linux_or_mach mingw_or_mach negb andb];
    repeat match goal with
           | |- context [answer ?c =? 0] =>
               destruct (Z.eqb_spec (answer c) 0)
           end;
    cbn [fst snd app List.last removelast count];
    (split; [|split; [|split]]);
    try reflexivity;
    try (intros; split);
    try congruence;
    try (repeat constructor; congruence);
    try (cbn; tauto).
Qed.

End WithPthreads.

(** Two records of handle 12 behind one of handle 11: only the first of
    the two is marked. *)
Lemma os_thread_start_first_only_witness :
  Threads.os_thread_start 32 12
    [MkTaskList 100 11 [] 2048; MkTaskList 200 12 [] 2048;
     MkTaskList 300 12 [] 2048]
  = [MkTaskList 100 11 [] 2048; MkTaskList 200 0 [] DELETED_TASK_MAGIC;
     MkTaskList 300 12 [] 2048].
Proof.
  refine (proj2 (os_thread_start_first_only 32 12 _)
            [MkTaskList 100 11 [] 2048] (MkTaskList 200 12 [] 2048)
            [MkTaskList 300 12 [] 2048] eq_refl _ eq_refl).
  repeat constructor. discriminate.
Defined.

(** A second thread, with handle 12 and its record at 200, is created
    beside a running one.  If its entry function returns after the record
    is linked, the next idle run frees the record.  If it returns before,
    the record is still at the head of the list after three idle runs,
    and nothing was freed. *)
Lemma created_exited_reclaimed_witness :
  let tl := [MkTaskList 100 11 (chars "thread.00") 2048] in
  Threads.vApplicationIdleHook 4 32 (fun x => x * 10)
    (Lifecycle.exits_after_linking 5 4 32 32 None (fun n => n)
       (MkThreads 1 tl) (replicate 10 0) None 0 0 12 200)
  = ([MkTaskList 100 11 (chars "thread.00") 440], [200])
  /\ Lifecycle.idle_runs 4 32 (fun x => x * 10) 3
       (Lifecycle.exits_before_linking 5 4 32 32 None (fun n => n)
          (MkThreads 1 tl) (replicate 10 0) None 0 0 12 200)
     = ([MkTaskList 200 12 (chars "thread.01") 480;
         MkTaskList 100 11 (chars "thread.00") 440], [])
  /\ ~ In 200
        (snd (Lifecycle.idle_runs 4 32 (fun x => x * 10) 3
                (Lifecycle.exits_before_linking 5 4 32 32 None (fun n => n)
                   (MkThreads 1 tl) (replicate 10 0) None 0 0 12 200))).
Proof.
  cbv zeta.
  pose proof (created_exited_reclaimed 5 4 32 32 None (fun n => n)
                (fun x => x * 10)
                (MkThreads 1 [MkTaskList 100 11 (chars "thread.00") 2048])
                (replicate 10 0) None 0 0 12 200) as H.
  destruct H as [H1 H2]; [lia|].
  split; [|split].
  - rewrite H1. reflexivity.
  - reflexivity.
  - refine (proj2 (H2 _ _ _ _ _ 3%nat)).
    + discriminate.
    + repeat constructor. discriminate.
    + repeat constructor. discriminate.
    + discriminate.
    + vm_compute. discriminate.
Defined.

Lemma vApplicationIdleHook_twice_witness :
  let tl := [MkTaskList 100 11 (chars "thread.01") 2048;
             MkTaskList 200 0 (chars "thread.00") DELETED_TASK_MAGIC] in
  Threads.vApplicationIdleHook 4 32 (fun x => x * 10)
    (fst (Threads.vApplicationIdleHook 4 32 (fun x => x * 10) tl))
  = ([MkTaskList 100 11 (chars "thread.01") 440], []).
Proof.
  cbv zeta.
  rewrite (vApplicationIdleHook_twice 4 32 (fun x => x * 10)).
  - reflexivity.
  - intros e [<-|[<-|[]]] Ht; cbn in *; [discriminate | contradiction].
Defined.

(** The counter at 2080, where the first counter character is [NUL]. *)
Lemma auto_name_shape_witness :
  length (replicate 10 7) = 10%nat
  /\ c_str (auto_name (replicate 10 7) 2080) = chars "thread."
  /\ auto_name (replicate 10 7) 2080 = auto_name (replicate 10 0) 2080.
Proof.
  split; [reflexivity|]. split; [reflexivity|].
  exact (proj1 (auto_name_shape (replicate 10 7) (replicate 10 0) 2080
                  eq_refl eq_refl)).
Defined.

(** The stack size is refused: the function returns the error number,
    nothing after the refused call is made, and no thread is named. *)
Lemma os_thread_create_pthread_result_witness :
  let answer := fun c => match c with
                         | pthread_attr_setstacksize _ => 22
                         | _ => 0
                         end in
  let r := Threads.os_thread_create_pthread (MkHost false false) answer
             threads_init (replicate 10 0) None 0 0 in
  fst (fst r) = 22
  /\ answer (List.last (snd (fst r)) pthread_attr_init) = 22
  /\ count (snd r) = 1.
Proof.
  cbv zeta. split; [reflexivity|].
  pose proof (os_thread_create_pthread_result (MkHost false false)
                (fun c => match c with
                          | pthread_attr_setstacksize _ => 22
                          | _ => 0
                          end)
                threads_init (replicate 10 0) None 0 0) as H.
  cbv zeta in H. destruct H as (H1 & _ & _ & H4).
  split; [apply H1; discriminate | exact H4].
Defined.

End ThreadsMore.

(** ** [usleep] *)

Module DelayFacts.

Import Delay CIntFacts.

(** X20.  For a 32-bit [useconds_t] argument whose tick count fits the
    tick type, [usleep] asks for the requested time rounded down to whole
    ticks of [2^NSEC_TO_TICK_SHIFT] ns, so never for more than was asked
    and for no tick at all when the request is shorter than one tick; it
    returns 0. *)
Theorem usleep_rounds_down NSEC_TO_TICK_SHIFT tick_bits usec :
  0 <= NSEC_TO_TICK_SHIFT -> 0 <= tick_bits ->
  0 <= usec < 2 ^ 32 ->
  usec * 1000 < 2 ^ NSEC_TO_TICK_SHIFT * 2 ^ tick_bits ->
  let ticks := fst (usleep NSEC_TO_TICK_SHIFT tick_bits usec) in
  ticks * 2 ^ NSEC_TO_TICK_SHIFT <= usec * 1000
  /\ usec * 1000 < (ticks + 1) * 2 ^ NSEC_TO_TICK_SHIFT
  /\ (usec * 1000 < 2 ^ NSEC_TO_TICK_SHIFT -> ticks = 0)
  /\ snd (usleep NSEC_TO_TICK_SHIFT tick_bits usec) = 0.
Proof.
  intros Hs Hb Hu Hfit. cbv zeta. unfold usleep. cbn [fst snd].
  change (2 ^ 32) with 4294967296 in Hu.
  rewrite (to_long_long_id usec)
    by (unfold is_long_long, LLONG_MIN, LLONG_MAX; lia).
  rewrite (to_long_long_id (usec * 1000))
    by (unfold is_long_long, LLONG_MIN, LLONG_MAX; lia).
  rewrite Z.shiftr_div_pow2 by assumption.
  assert (Hp : 0 < 2 ^ NSEC_TO_TICK_SHIFT) by (apply Z.pow_pos_nonneg; lia).
  set (t := usec * 1000 / 2 ^ NSEC_TO_TICK_SHIFT).
  assert (Ht : 0 <= t < 2 ^ tick_bits).
  { subst t. split; [apply Z.div_pos; lia|].
    apply Z.div_lt_upper_bound; assumption. }
  unfold to_TickType, wrap_unsigned. rewrite (Z.mod_small t) by exact Ht.
  pose proof (Z.mul_div_le (usec * 1000) _ Hp) as Hlo.
  pose proof (Z.mul_succ_div_gt (usec * 1000) _ Hp) as Hhi.
  fold t in Hlo, Hhi.
  repeat split; try lia.
  intros Hshort. subst t. apply Z.div_small. lia.
Qed.

(** The 10 ms poll of [os_thread_once], with ticks of [2^20] ns and a
    32-bit tick type: nine ticks. *)
Lemma usleep_rounds_down_witness :
  fst (usleep 20 32 10000) = 9
  /\ fst (usleep 20 32 10000) * 2 ^ 20 <= 10000 * 1000.
Proof.
  split; [reflexivity|].
  refine (proj1 (usleep_rounds_down 20 32 10000 _ _ _ _));
    vm_compute; try split; discriminate || reflexivity.
Defined.

End DelayFacts.

(** ** [pipe] *)

Module PipeFacts.

Import Pipe.

(** X21.  [pipe] returns 0 or -1.  When it returns -1 it has set [errno]
    to [EMFILE], stored no descriptor and closed every socket it had
    obtained.  When it returns 0 it has left [errno] alone, closed only
    the listening socket, and the two descriptors it stored are the
    connecting and the accepted socket, which are the other sockets it
    obtained. *)
Theorem pipe_closes_or_returns a :
  (returned (pipe a) = -1
   /\ errno (pipe a) = Some EMFILE
   /\ fildes (pipe a) = None
   /\ closed (made (pipe a)) = obtained a)
  \/ (returned (pipe a) = 0
      /\ errno (pipe a) = None
      /\ fildes (pipe a) = Some (a_connector a, a_acceptor a)
      /\ closed (made (pipe a)) = [a_listener a]
      /\ obtained a = [a_listener a; a_connector a; a_acceptor a]
      /\ 0 < a_listener a /\ 0 < a_connector a /\ 0 <= a_acceptor a).
Proof.
  unfold pipe, obtained, fail.
  destruct (Z.leb_spec (a_listener a) 0); [left; repeat split|].
  destruct (Z.leb_spec (a_connector a) 0); [left; repeat split|].
  destruct (Z.ltb_spec (a_setsockopt a) 0); [left; repeat split|].
  destruct (Z.ltb_spec (a_bind a) 0); [left; repeat split|].
  destruct (Z.ltb_spec (a_getsockname a) 0); [left; repeat split|].
  destruct (Z.ltb_spec (a_listen a) 0); [left; repeat split|].
  destruct (Z.ltb_spec (a_connect a) 0); [left; repeat split|].
  destruct (Z.ltb_spec (a_acceptor a) 0); [left; repeat split|].
  right. cbn. repeat split; lia.
Qed.

(** X22.  When the library gives the listening and the connecting
    socket different handles, [pipe] never names a socket in a call after
    it has closed that socket, and closes no socket twice. *)
Theorem pipe_no_use_after_close a :
  a_listener a <> a_connector a ->
  used_after_close [] (made (pipe a)) = false.
Proof.
  intros Hne. apply Z.eqb_neq in Hne.
  assert (Hne' : (a_connector a =? a_listener a) = false)
    by (rewrite Z.eqb_sym; exact Hne).
  unfold pipe, fail.
  repeat match goal with
         | |- context [?x <=? 0] => destruct (x <=? 0)
         | |- context [?x <? 0] => destruct (x <? 0)
         end;
    cbn; rewrite ?Hne, ?Hne'; reflexivity.
Qed.

Lemma pipe_no_use_after_close_witness :
  let a := MkAnswers 4 5 0 0 0 0 (-1) 6 in
  a_listener a <> a_connector a
  /\ made (pipe a)
     = [socket; socket; setsockopt_SO_REUSEADDR 4; bind 4; getsockname 4;
        listen 4; connect 5; closesocket 4; closesocket 5]
  /\ used_after_close [] (made (pipe a)) = false.
Proof.
  cbv zeta.
  assert (H : a_listener (MkAnswers 4 5 0 0 0 0 (-1) 6)
              <> a_connector (MkAnswers 4 5 0 0 0 0 (-1) 6))
    by discriminate.
  split; [exact H|]. split; [reflexivity|].
  exact (pipe_no_use_after_close (MkAnswers 4 5 0 0 0 0 (-1) 6) H).
Defined.

End PipeFacts.

